(** * EzyCore: partial references and the SQLAlchemy driver

    A shallow embedding of [ezycore/models/core.py] and
    [ezycore/drivers/sqlalchemy_driver.py], and the properties of the design
    document checked against it.

    Python objects are first-order data: a dict is an insertion-ordered
    association list, a set is a [gset], the dicts that are only ever
    looked up are [gmap]s.  A function that may raise returns a [result];
    a method that also mutates [self] is a function from the driver to a
    result and the driver afterwards.  Assertions are enabled (the
    interpreter is not run with -O). *)

From Stdlib Require Import ZArith.
From stdpp Require Import base option list gmap strings.

Set Warnings "-register-all".

Local Open Scope string_scope.
Local Open Scope Z_scope.

(** ** Python values and exceptions *)

(** The values that flow through validation: scalars, plain dicts (keyword
    arguments, fetched records) and instances of pydantic models.  An
    instance carries the names of the classes of its type's MRO, its own
    class first, which is what [isinstance] consults. *)
Inductive value : Type :=
  | VNone
  | VInt (z : Z)
  | VStr (s : string)
  | VDict (items : list (string * value))
  | VInst (mro : list string) (fields : list (string * value)).

Abbreviation pydict := (list (string * value)).

(** The exceptions the two modules raise or let through.  A pydantic
    [ErrorWrapper] is the pair of the wrapped exception and its location. *)
Inductive exn : Type :=
  | KeyError (key : string)
  | IndexError (msg : string)
  | TypeError (msg : string)
  | AttributeError (msg : string)
  | AssertionError (msg : string)
  | ValueError (msg : string)
  | MissingError
  | StopIteration
  | ModalMissingConfig (msg : string)
  | ValidationError (errors : list (exn * string)) (model : string)
  | SQLAlchemyError (msg : string).

Abbreviation ErrorWrapper := (exn * string)%type.

Inductive result (A : Type) : Type :=
  | Return (a : A)
  | Raise (e : exn).
Arguments Return {A} a.
Arguments Raise {A} e.

(** The error monad, with stdpp's notations [x ← m; k] and [m ≫= k]. *)
#[global] Instance result_ret : MRet result := λ A a, Return a.
#[global] Instance result_bind : MBind result := λ A B k r,
  match r with
  | Return a => k a
  | Raise e => Raise e
  end.

(** ** Insertion-ordered dicts *)

Section pydict.
Context {V : Type}.
Implicit Types d : list (string * V).

(** [d.get(key)] *)
Fixpoint dict_get d (key : string) : option V :=
  match d with
  | [] => None
  | (k, v) :: rest => if decide (k = key) then Some v else dict_get rest key
  end.

(** [d[key] = v]: an existing key keeps its position, a new one goes last. *)
Fixpoint dict_set d (key : string) (v : V) : list (string * V) :=
  match d with
  | [] => [(key, v)]
  | (k, x) :: rest =>
      if decide (k = key) then (k, v) :: rest else (k, x) :: dict_set rest key v
  end.

(** [d.update(other)] *)
Definition dict_update d (other : list (string * V)) : list (string * V) :=
  foldl (λ acc kv, dict_set acc kv.1 kv.2) d other.

(** [d[key]] *)
Definition dict_getitem d (key : string) : result V :=
  match dict_get d key with
  | Some v => Return v
  | None => Raise (KeyError key)
  end.
End pydict.

(** [m[key]] on a dict that is only looked up. *)
Definition getitem {V} (m : gmap string V) (key : string) : result V :=
  match m !! key with
  | Some v => Return v
  | None => Raise (KeyError key)
  end.

(** [m.get(key, default)] where [key] itself may be [None] (never a key). *)
Definition get_default {V} (m : gmap string V) (key : option string)
    (default : option V) : option V :=
  match key ≫= (m !!.) with
  | Some v => Some v
  | None => default
  end.

(** [", ".join(l)] *)
Fixpoint join (sep : string) (l : list string) : string :=
  match l with
  | [] => ""
  | [x] => x
  | x :: rest => x +:+ sep +:+ join sep rest
  end.

(** ** models/core.py *)

(** [class Config(BaseModel)] *)
Record Config : Type := {
  search_by : string;
  exclude : gset string;
  partials : gmap string string;
  invalidate_after : Z;
  ezycore_internal__ : list (string * Z)
}.

(** A pydantic [ModelField]: [fld_validate v values loc] is
    [field.validate(v, values, loc=loc)], the pair of the coerced value and
    of the error, if any. *)
Record ModelField : Type := {
  fld_required : bool;
  fld_default : value;
  fld_validate : value → pydict → string → result (value * option ErrorWrapper)
}.

(** A declared subclass of [Model]: its name, the names of the other classes
    of its MRO, [cls._config] and [cls.__fields__]. *)
Record ModelClass : Type := {
  mc_name : string;
  mc_bases : list string;
  mc_config : Config;
  mc_fields : list (string * ModelField)
}.

(** [isinstance(v, type_)] *)
Definition isinstance (v : value) (type_ : ModelClass) : bool :=
  match v with
  | VInst mro _ => bool_decide (mc_name type_ ∈ mro)
  | _ => false
  end.

(** [PartialRef.validate], for a field annotated [PartialRef[type_]]. *)
Definition PartialRef_validate (type_ : ModelClass) (v : value) : result value :=
  if isinstance v type_ then Return v
  else
    let primary_key := search_by (mc_config type_) in
    primary_field ← dict_getitem (mc_fields type_) primary_key;
    '(valid_value, err) ← fld_validate primary_field v [] primary_key;
    match err with
    | Some err => Raise (ValidationError [err] "PartialRef")
    | None => Return valid_value
    end.

(** *** The validation primitive (pydantic) *)

(** pydantic's [ValidationError] derives from [ValueError]; a validator that
    raises a [ValueError], [TypeError] or [AssertionError] makes its field
    fail, any other exception goes through. *)
Definition is_validator_error (e : exn) : bool :=
  match e with
  | ValueError _ | ValidationError _ _ | MissingError
  | TypeError _ | AssertionError _ => true
  | _ => false
  end.

(** The field pydantic builds for the annotation [PartialRef[type_]]: its one
    validator is the one [PartialRef.__get_validators__] yields. *)
Definition partial_field (type_ : ModelClass) : ModelField := {|
  fld_required := true;
  fld_default := VNone;
  fld_validate v _ loc :=
    match PartialRef_validate type_ v with
    | Return x => Return (x, None)
    | Raise e =>
        if is_validator_error e then Return (v, Some (e, loc)) else Raise e
    end
|}.

(** [validate_model]: every declared field is looked up in the input and run
    through its own validator; the validated value is what gets stored. *)
Fixpoint validate_model (fields : list (string * ModelField)) (input : pydict)
    (values : pydict) (errors : list ErrorWrapper)
    : result (pydict * list ErrorWrapper) :=
  match fields with
  | [] => Return (values, errors)
  | (name, field) :: rest =>
      match dict_get input name with
      | None =>
          if fld_required field
          then validate_model rest input values (errors ++ [(MissingError, name)])
          else validate_model rest input (dict_set values name (fld_default field)) errors
      | Some v =>
          '(v_, err) ← fld_validate field v values name;
          match err with
          | Some err => validate_model rest input values (errors ++ [err])
          | None => validate_model rest input (dict_set values name v_) errors
          end
      end
  end.

(** [model_init model data]: the call of [model] with the entries of [data]
    as keyword arguments. *)
Definition model_init (model : ModelClass) (data : pydict) : result value :=
  '(values, errors) ← validate_model (mc_fields model) data [] [];
  match errors with
  | [] => Return (VInst (mc_name model :: mc_bases model) values)
  | _ => Raise (ValidationError errors (mc_name model))
  end.

(** The plain form of a value, as [.dict()] produces it: instances become
    dicts, recursively. *)
Fixpoint to_plain (v : value) : value :=
  match v with
  | VInst _ fields => VDict (map (λ kv, (kv.1, to_plain kv.2)) fields)
  | VDict items => VDict (map (λ kv, (kv.1, to_plain kv.2)) items)
  | _ => v
  end.

(** Whether [.dict(include=include, exclude=exclude)] keeps the field [k];
    [include=None] keeps every field. *)
Definition kept (include : option (gset string)) (exclude : gset string)
    (k : string) : bool :=
  match include with
  | Some inc => bool_decide (k ∈ inc)
  | None => true
  end && bool_decide (k ∉ exclude).

(** [instance.dict(include=include, exclude=exclude)].  A value that is not
    an instance has no such method. *)
Definition to_dict (v : value) (include : option (gset string))
    (exclude : gset string) : result pydict :=
  match v with
  | VInst _ fields =>
      Return (map (λ kv, (kv.1, to_plain kv.2))
                (List.filter (λ kv, kept include exclude kv.1) fields))
  | VDict _ => Raise (AttributeError "'dict' object has no attribute 'dict'")
  | _ => Raise (AttributeError "object has no attribute 'dict'")
  end.

(** *** Declaring a subclass of [Model] *)

(** [Config_init r] is the call of [Config] with the entries of [r] as
    keyword arguments: pydantic's constructor, which the modules under study
    only call. *)
Class Pydantic : Type := {
  Config_init : pydict → result Config
}.

(** The argument of a [PartialRef[...]] annotation, as [issubclass(arg, Model)]
    sees it: a subclass of [Model], another class, or no class at all. *)
Inductive partial_arg : Type :=
  | ArgModel (type_ : ModelClass)
  | ArgClass (name : string)
  | ArgNotClass.

(** An entry of [cls.__annotations__]: either its [__origin__] is
    [PartialRef], or it is any other annotation; among the latter, the
    strings that all the annotations of a module are under
    [from __future__ import annotations], kept with their text.  pydantic
    evaluates such a string when it builds the field; [_read_partials] looks
    at the string itself. *)
Inductive annotation : Type :=
  | APartialRef (arg : partial_arg)
  | AOther
  | APostponed (text : string).

(** What [getattr(cls, '_config')] can find. *)
Inductive config_attr : Type :=
  | CDict (r : pydict)
  | CConfig (c : Config)
  | COther (v : value).

(** The class object handed to [__init_subclass__]: its own annotations in
    declaration order, the [_config] attribute found along its MRO (if any)
    and the [ezycore_internal__partials] attribute. *)
Record class_obj : Type := {
  annotations : list (string * annotation);
  _config : option config_attr;
  ezycore_internal__partials : option (list string)
}.

Definition issubclass_Model (arg : partial_arg) : result bool :=
  match arg with
  | ArgModel _ => Return true
  | ArgClass _ => Return false
  | ArgNotClass => Raise (TypeError "issubclass() arg 1 must be a class")
  end.

(** [tuple(cls._read_partials())]: the generator is run to its end, or to the
    first annotation it rejects. *)
Fixpoint _read_partials (anns : list (string * annotation)) : result (list string) :=
  match anns with
  | [] => Return []
  | (k, AOther) :: rest => _read_partials rest
  | (k, APostponed _) :: rest => _read_partials rest
  | (k, APartialRef arg) :: rest =>
      is_model ← issubclass_Model arg;
      if is_model : bool
      then ks ← _read_partials rest; Return (k :: ks)
      else Raise (ValueError ("Invalid model provided for partial definition: " +:+ k))
  end.

(** [Model._verify_partials] *)
Definition _verify_partials (cls : class_obj) : result class_obj :=
  partials_ ← _read_partials (annotations cls);
  let cls := {| annotations := annotations cls;
                _config := _config cls;
                ezycore_internal__partials := Some partials_ |} in
  defined_partials ←
    match _config cls with
    | Some (CConfig c) => Return (partials c)
    | _ => Raise (AttributeError "partials")
    end;
  let missing := filter (λ i, defined_partials !! i = None) partials_ in
  match missing with
  | [] => Return cls
  | _ => Raise (ValueError ("Missing partial definitions for: " +:+ join ", " missing))
  end.

(** [Model.__init_subclass__]: runs while the class statement is executed;
    when it raises, the statement fails and the class is never bound.  The
    class statement passes no keyword argument ([kwds] is empty). *)
Definition __init_subclass__ `{Pydantic} (cls : class_obj) : result class_obj :=
  r ←
    match _config cls with
    | Some r => Return r
    | None => Raise (ModalMissingConfig "_config variable not found")
    end;
  cls ←
    match r with
    | CDict r =>
        c ← Config_init r;
        Return {| annotations := annotations cls;
                  _config := Some (CConfig c);
                  ezycore_internal__partials := ezycore_internal__partials cls |}
    | CConfig _ => Return cls
    | COther _ => Raise (AssertionError "Invalid config class provided")
    end;
  _verify_partials cls.

(** ** drivers/sqlalchemy_driver.py *)

(** A row as the backend returns it: a tuple of column values. *)
Abbreviation row := (list value).

(** The backing store (SQLAlchemy): schema reflection, query construction
    and execution, and row insertion with commit and rollback.  Every
    operation may raise; those on the session also change it. *)
Class Backend : Type := {
  Session : Type;
  Query : Type;
  Mapped : Type;
  connect : string → result Session;
  reflect : Session → result (list (string * list string));
  select : string → result Query;
  query_where : Query → string → result Query;
  query_limit : Query → Z → result Query;
  execute_fetchall : Query → Session → result (list row) * Session;
  execute_fetchone : Query → Session → result (option row) * Session;
  table_instance : string → pydict → Session → result Mapped;
  session_add : Mapped → Session → result () * Session;
  session_commit : Session → result () * Session;
  session_rollback : Session → result () * Session
}.

Section driver.
Context `{Backend}.

(** The driver as a method sees it during one call: its attributes, the two
    dicts it refers to read through, and the lines it has printed.  Who else
    holds these dicts is the matter of the store of objects further down. *)
Record Driver : Type := {
  models : gmap string ModelClass;
  headers : gmap string (list string);
  maps : list (string * string);
  rev_map : gmap string string;
  session : Session;
  stdout : list string
}.

Definition set_models (f : gmap string ModelClass → gmap string ModelClass)
    (self : Driver) : Driver :=
  {| models := f (models self); headers := headers self; maps := maps self;
     rev_map := rev_map self; session := session self; stdout := stdout self |}.

Definition set_headers (h : gmap string (list string)) (self : Driver) : Driver :=
  {| models := models self; headers := h; maps := maps self;
     rev_map := rev_map self; session := session self; stdout := stdout self |}.

Definition set_session (s : Session) (self : Driver) : Driver :=
  {| models := models self; headers := headers self; maps := maps self;
     rev_map := rev_map self; session := s; stdout := stdout self |}.

(** [print(line)] *)
Definition print (line : string) (self : Driver) : Driver :=
  {| models := models self; headers := headers self; maps := maps self;
     rev_map := rev_map self; session := session self;
     stdout := stdout self ++ [line] |}.

(** The comprehension [{v: k for k, v in maps.items()}]: a later pair
    overwrites an earlier one with the same value. *)
Definition invert (maps : list (string * string)) : gmap string string :=
  foldl (λ acc kv, <[kv.2 := kv.1]> acc) ∅ maps.

(** [_read_heads] *)
Definition _read_heads (self : Driver) : result Driver :=
  tables ← reflect (session self);
  Return (set_headers (foldl (λ h t, <[t.1 := t.2]> h) (headers self) tables) self).

(** [__init__] *)
Definition __init__ (database_url : string) (models_ : gmap string ModelClass)
    (model_maps : list (string * string)) : result Driver :=
  s ← connect database_url;
  _read_heads {| models := models_; headers := ∅; maps := model_maps;
                 rev_map := invert model_maps; session := s; stdout := [] |}.

(** [_get_model] *)
Definition _get_model (self : Driver) (location : string) : option ModelClass :=
  get_default (models self) (Some location)
    (get_default (models self) (dict_get (maps self) location)
       (get_default (models self) (rev_map self !! location) None)).

(** [_model_fits] *)
Definition _model_fits (self : Driver) (location : string) : result bool :=
  match _get_model self location with
  | None => Return false
  | Some model =>
      let keys := (mc_fields model).*1 in
      cols ← getitem (headers self) location;
      Return (bool_decide ((list_to_set cols : gset string) ⊆ list_to_set keys))
  end.

(** [map_to_model] *)
Definition map_to_model (kwds : list (string * string)) (self : Driver) : Driver :=
  let maps_ := dict_update (maps self) kwds in
  {| models := models self; headers := headers self; maps := maps_;
     rev_map := invert maps_; session := session self; stdout := stdout self |}.

(** *** Reading *)

(** The generator object [_result_to_output(head, model, results)] returns:
    nothing of its body has run yet.  It keeps [self] by reference, so
    [next] reads the driver as it is when the element is asked for. *)
Inductive generator : Type :=
  | Suspended (head : string) (model : option ModelClass) (results : list row)
  | Finished.

Definition _result_to_output (head : string) (model : option ModelClass)
    (results : list row) : generator :=
  Suspended head model results.

(** [{self.__headers[head][i]: v for i, v in enumerate(result)}], from
    index [i] on. *)
Fixpoint zip_headers (self : Driver) (head : string) (i : nat) (result_ : row)
    (data : pydict) : result pydict :=
  match result_ with
  | [] => Return data
  | v :: rest =>
      cols ← getitem (headers self) head;
      key ← match cols !! i with
            | Some c => Return c
            | None => Raise (IndexError "tuple index out of range")
            end;
      zip_headers self head (S i) rest (dict_set data key v)
  end.

(** One turn of the loop body of [_result_to_output]. *)
Definition convert (self : Driver) (head : string) (model : option ModelClass)
    (result_ : row) : result pydict :=
  data ← zip_headers self head 0 result_ [];
  match model with
  | None => Return data
  | Some model => inst ← model_init model data; to_dict inst None ∅
  end.

(** [next(g)]: runs the generator up to its next [yield]; a generator that
    has raised or returned is finished. *)
Definition next (self : Driver) (g : generator) : result pydict * generator :=
  match g with
  | Finished | Suspended _ _ [] => (Raise StopIteration, Finished)
  | Suspended head model (result_ :: results) =>
      match convert self head model result_ with
      | Return data => (Return data, Suspended head model results)
      | Raise e => (Raise e, Finished)
      end
  end.

(** The statements of the [try] block of [fetch] that build the query. *)
Definition fetch_query (table condition : string) (limit_result : Z) : result Query :=
  query ← select table;
  query ← (if bool_decide (condition ≠ "") then query_where query condition
            else Return query);
  if bool_decide (0 < limit_result) then query_limit query limit_result
  else Return query.

(** The [try] block of [fetch]. *)
Definition fetch_try (table condition : string) (limit_result : Z)
    (s : Session) : result (list row) * Session :=
  match fetch_query table condition limit_result with
  | Return query => execute_fetchall query s
  | Raise e => (Raise e, s)
  end.

(** What [fetch] returns when it does not return [None]. *)
Inductive fetched : Type :=
  | RawRows (results : list row)
  | Records (g : generator).

(** [if model and not self._get_model(location): self.__models[location] = model] *)
Definition bind_model (location : string) (model : option ModelClass)
    (self : Driver) : Driver :=
  match model, _get_model self location with
  | Some m, None => set_models <[location := m]> self
  | _, _ => self
  end.

(** [fetch] *)
Definition fetch (location condition : string) (limit_result : Z)
    (model : option ModelClass) (no_handle ignore_model : bool)
    (self : Driver) : result (option fetched) * Driver :=
  let self := bind_model location model self in
  let model := _get_model self location in
  let table := default location (dict_get (maps self) location) in
  match fetch_try table condition limit_result (session self) with
  | (Raise (SQLAlchemyError e), s) =>
      (Return None, print ("Error fetching data: " +:+ e) (set_session s self))
  | (Raise e, s) => (Raise e, set_session s self)
  | (Return results, s) =>
      let self := set_session s self in
      match results with
      | [] => (Return None, self)
      | _ =>
          if no_handle then (Return (Some (RawRows results)), self)
          else (Return (Some (Records
                 (_result_to_output table
                    (if ignore_model then None else model) results))), self)
      end
  end.

(** The statements of the [try] block of [fetch_one] that build the query;
    [condition] defaults to [None]. *)
Definition fetch_one_query (table : string) (condition : option string)
    : result Query :=
  query ← select table;
  query ← match condition with
           | Some c => if bool_decide (c ≠ "") then query_where query c
                       else Return query
           | None => Return query
           end;
  query_limit query 1.

(** The [try] block of [fetch_one]. *)
Definition fetch_one_try (table : string) (condition : option string)
    (s : Session) : result (option row) * Session :=
  match fetch_one_query table condition with
  | Return query => execute_fetchone query s
  | Raise e => (Raise e, s)
  end.

(** What [fetch_one] returns when it does not return [None]. *)
Inductive fetched_one : Type :=
  | RawRow (result_ : row)
  | Record_ (data : pydict).

(** [fetch_one] *)
Definition fetch_one (location : string) (condition : option string)
    (model : option ModelClass) (no_handle ignore_model : bool)
    (self : Driver) : result (option fetched_one) * Driver :=
  let self := bind_model location model self in
  let model := _get_model self location in
  let table := default location (dict_get (maps self) location) in
  match fetch_one_try table condition (session self) with
  | (Raise (SQLAlchemyError e), s) =>
      (Return None, print ("Error fetching data: " +:+ e) (set_session s self))
  | (Raise e, s) => (Raise e, set_session s self)
  | (Return result_, s) =>
      let self := set_session s self in
      match result_ with
      | None | Some [] => (Return None, self)
      | Some result_ =>
          if no_handle then (Return (Some (RawRow result_)), self)
          else
            match next self (_result_to_output table
                               (if ignore_model then None else model) [result_]) with
            | (Return data, _) => (Return (Some (Record_ data)), self)
            | (Raise e, _) => (Raise e, self)
            end
      end
  end.

(** *** Writing *)

(** [x or default] on an optional set: [None] and the empty set are both
    false. *)
Definition or_set (x : option (gset string)) (default : result (gset string))
    : result (gset string) :=
  match x with
  | Some s => if decide (s = ∅) then default else Return s
  | None => default
  end.

(** The statements of the loop body of [export] that come before its
    [try]: coercion into the model, projection, and the mapped row. *)
Definition export_prepare (model : option ModelClass) (include exclude : gset string)
    (location : string) (data : value) (self : Driver) : result Mapped :=
  data ← match data, model with
          | VDict items, Some model => model_init model items
          | _, _ => Return data
          end;
  data ← to_dict data (Some include) exclude;
  let table := default location (dict_get (maps self) location) in
  table_instance table data (session self).

(** The [try] block of the loop body of [export]. *)
Definition export_try (instance : Mapped) (s : Session) : result () * Session :=
  match session_add instance s with
  | (Return _, s) => session_commit s
  | (Raise e, s) => (Raise e, s)
  end.

(** The loop body of [export]. *)
Definition export_item (model : option ModelClass) (include exclude : gset string)
    (location : string) (data : value) (self : Driver) : result () * Driver :=
  match export_prepare model include exclude location data self with
  | Raise e => (Raise e, self)
  | Return instance =>
      match export_try instance (session self) with
      | (Return _, s) => (Return (), set_session s self)
      | (Raise (SQLAlchemyError e), s) =>
          let self := print ("Error exporting data: " +:+ e) (set_session s self) in
          let '(r, s) := session_rollback (session self) in
          (r, set_session s self)
      | (Raise e, s) => (Raise e, set_session s self)
      end
  end.

(** [for data in stream: ...] *)
Fixpoint export_loop (model : option ModelClass) (include exclude : gset string)
    (location : string) (stream : list value) (self : Driver)
    : result () * Driver :=
  match stream with
  | [] => (Return (), self)
  | data :: stream =>
      match export_item model include exclude location data self with
      | (Return _, self) => export_loop model include exclude location stream self
      | (Raise e, self) => (Raise e, self)
      end
  end.

(** [export] *)
Definition export (location : string) (stream : list value)
    (include exclude : option (gset string)) (self : Driver)
    : result () * Driver :=
  match _model_fits self location with
  | Raise e => (Raise e, self)
  | Return false =>
      (Raise (AssertionError "Incorrect model or no model binded for this table"),
       self)
  | Return true =>
      let model := _get_model self location in
      match or_set include
              (cols ← getitem (headers self) location; Return (list_to_set cols)) with
      | Raise e => (Raise e, self)
      | Return include =>
          let exclude := default ∅ exclude in
          export_loop model include exclude location stream self
      end
  end.
End driver.

(** ** Drivers among other objects

    [__init__] keeps the two dicts it is given by reference, and its default
    arguments are two dict objects made once, when the class is defined, and
    shared by every driver created without the argument.  The functions above
    describe one call, on the driver as the method sees it; here the dict
    objects are kept in a store, so that what one driver writes in place,
    every holder of the dict reads. *)
Section objects.
Context `{Backend}.

(** A driver object: [__models] and [__maps] refer to dict objects, the
    other attributes are the object's own ([__headers] and [__rev_map] are
    dicts made by the driver itself). *)
Record DriverObj : Type := {
  models_ref : nat;
  maps_ref : nat;
  obj_headers : gmap string (list string);
  obj_rev_map : gmap string string;
  obj_session : Session;
  obj_stdout : list string
}.

(** The dict objects of the program, by identity, and its driver objects. *)
Record World : Type := {
  models_heap : list (gmap string ModelClass);
  maps_heap : list (list (string * string));
  objects : list DriverObj
}.

(** The default arguments [models = dict()] and [model_maps = dict()]. *)
Definition default_models : nat := 0.
Definition default_model_maps : nat := 0.

(** The world once the class is defined: the two default dicts exist and
    are empty. *)
Definition initial_world : World :=
  {| models_heap := [∅]; maps_heap := [[]]; objects := [] |}.

(** [self] as a method of the driver [d] finds it. *)
Definition view (w : World) (d : nat) : option Driver :=
  o ← objects w !! d;
  ms ← models_heap w !! models_ref o;
  mm ← maps_heap w !! maps_ref o;
  Some {| models := ms; headers := obj_headers o; maps := mm;
          rev_map := obj_rev_map o; session := obj_session o;
          stdout := obj_stdout o |}.

(** What a method of the driver [d] leaves: the dicts it changed in place are
    changed for all their holders, the attributes it rebound are its own. *)
Definition store (d : nat) (self : Driver) (w : World) : World :=
  match objects w !! d with
  | Some o =>
      {| models_heap := <[models_ref o := models self]> (models_heap w);
         maps_heap := <[maps_ref o := maps self]> (maps_heap w);
         objects := <[d := {| models_ref := models_ref o;
                              maps_ref := maps_ref o;
                              obj_headers := headers self;
                              obj_rev_map := rev_map self;
                              obj_session := session self;
                              obj_stdout := stdout self |}]> (objects w) |}
  | None => w
  end.

(** [SQLAlchemyDriver(database_url, models, model_maps)], an omitted argument
    being [None]: the new driver refers to the dicts it is given.  An
    argument that refers to no object is not a dict. *)
Definition new_driver (database_url : string)
    (models_arg model_maps_arg : option nat) (w : World) : result (nat * World) :=
  let models_ref_ := default default_models models_arg in
  let maps_ref_ := default default_model_maps model_maps_arg in
  match models_heap w !! models_ref_, maps_heap w !! maps_ref_ with
  | Some ms, Some mm =>
      self ← __init__ database_url ms mm;
      Return (length (objects w),
              {| models_heap := models_heap w;
                 maps_heap := maps_heap w;
                 objects := objects w ++ [{| models_ref := models_ref_;
                                             maps_ref := maps_ref_;
                                             obj_headers := headers self;
                                             obj_rev_map := rev_map self;
                                             obj_session := session self;
                                             obj_stdout := stdout self |}] |})
  | _, _ => Raise (TypeError "not a dict")
  end.

(** A call of a method on the driver [d]. *)
Definition call {A : Type} (method : Driver → result A * Driver) (d : nat)
    (w : World) : option (result A) * World :=
  match view w d with
  | Some self => let '(r, self) := method self in (Some r, store d self w)
  | None => (None, w)
  end.

(** [d.map_to_model(...)] with the keyword arguments [kwds]. *)
Definition call_map_to_model (d : nat) (kwds : list (string * string))
    (w : World) : World :=
  match view w d with
  | Some self => store d (map_to_model kwds self) w
  | None => w
  end.

(** What a program does with drivers and their location maps: it makes the
    dicts it passes, creates drivers and calls [map_to_model]. *)
Inductive step : Type :=
  | NewDict (items : list (string * string))
  | NewModels (ms : gmap string ModelClass)
  | NewDriver (database_url : string) (models_arg model_maps_arg : option nat)
  | MapToModel (d : nat) (kwds : list (string * string)).

Definition run_step (s : step) (w : World) : World :=
  match s with
  | NewDict items =>
      {| models_heap := models_heap w; maps_heap := maps_heap w ++ [items];
         objects := objects w |}
  | NewModels ms =>
      {| models_heap := models_heap w ++ [ms]; maps_heap := maps_heap w;
         objects := objects w |}
  | NewDriver database_url models_arg model_maps_arg =>
      match new_driver database_url models_arg model_maps_arg w with
      | Return (_, w) => w
      | Raise _ => w
      end
  | MapToModel d kwds => call_map_to_model d kwds w
  end.

Definition run (steps : list step) (w : World) : World :=
  foldl (λ w s, run_step s w) w steps.

(** The dict object the driver [d] has for [__maps]. *)
Definition maps_ref_of (w : World) (d : nat) : option nat :=
  maps_ref <$> objects w !! d.

(** No step calls [map_to_model] on another driver that has the same dict
    object for [__maps] as the driver [d]. *)
Fixpoint undisturbed (d : nat) (steps : list step) (w : World) : Prop :=
  match steps with
  | [] => True
  | s :: steps =>
      match s with
      | MapToModel d' _ => d' = d ∨ maps_ref_of w d' ≠ maps_ref_of w d
      | _ => True
      end
      ∧ undisturbed d steps (run_step s w)
  end.

(** The driver [d] was just created, or has just returned from
    [map_to_model]. *)
Definition fresh_from_maps (w : World) (d : nat) : Prop :=
  (∃ database_url models_arg model_maps_arg w0,
     new_driver database_url models_arg model_maps_arg w0 = Return (d, w))
  ∨ (∃ kwds w0, is_Some (view w0 d) ∧ w = call_map_to_model d kwds w0).

(** [rev_map] is the inverse of [maps], as the driver [d] finds them. *)
Definition in_step (w : World) (d : nat) : Prop :=
  ∃ self, view w d = Some self ∧ rev_map self = invert (maps self).
End objects.

(** ** A small instance: two models and an in-memory store

    Used to run the definitions above on concrete inputs. *)
Module Demo.

(** An [int] field that accepts integers only. *)
Definition int_field : ModelField := {|
  fld_required := true;
  fld_default := VNone;
  fld_validate v _ loc :=
    Return (match v with
            | VInt _ => (v, None)
            | _ => (v, Some (TypeError "value is not a valid integer", loc))
            end)
|}.

Definition config (key : string) (partials_ : gmap string string) : Config := {|
  search_by := key;
  exclude := ∅;
  partials := partials_;
  invalidate_after := -1;
  ezycore_internal__ := [("n_fetch", 0)]
|}.

(** [class Author(Model)] with [id: int] and [_config = {'search_by': 'id'}] *)
Definition Author : ModelClass := {|
  mc_name := "Author";
  mc_bases := ["Model"; "BaseModel"];
  mc_config := config "id" ∅;
  mc_fields := [("id", int_field)]
|}.

(** [class Book(Model)] with [id: int], [author: PartialRef[Author]] and
    [_config = {'search_by': 'id', 'partials': {'author': 'authors'}}] *)
Definition Book : ModelClass := {|
  mc_name := "Book";
  mc_bases := ["Model"; "BaseModel"];
  mc_config := config "id" {["author" := "authors"]};
  mc_fields := [("id", int_field); ("author", partial_field Author)]
|}.

(** A [Config] constructor that wants a string [search_by] and takes the
    string entries of an optional [partials] dict. *)
Definition pydantic : Pydantic := {|
  Config_init r :=
    match dict_get r "search_by" with
    | Some (VStr key) =>
        Return (config key
                  match dict_get r "partials" with
                  | Some (VDict items) =>
                      foldl (λ acc kv, match kv.2 with
                                       | VStr seg => <[kv.1 := seg]> acc
                                       | _ => acc
                                       end) ∅ items
                  | _ => ∅
                  end)
    | Some _ => Raise (ValidationError [(TypeError "str type expected", "search_by")] "Config")
    | None => Raise (ValidationError [(MissingError, "search_by")] "Config")
    end
|}.

(** The class statement of a model with two partial references, for a
    given [_config]. *)
Definition Book_decl (config_ : option config_attr) : class_obj := {|
  annotations := [("id", AOther); ("author", APartialRef (ArgModel Author));
                  ("editor", APartialRef (ArgModel Author))];
  _config := config_;
  ezycore_internal__partials := None
|}.

(** The store: committed rows and rows added since the last commit, each
    with its table. *)
Record store : Type := {
  db : list (string * pydict);
  pending : list (string * pydict)
}.

Record query : Type := {
  q_table : string;
  q_where : option string;
  q_limit : option Z
}.

Definition schema : list (string * list string) :=
  [("authors", ["id"]); ("books", ["id"; "author"])].

Definition row_id (r : pydict) : option Z :=
  match dict_get r "id" with
  | Some (VInt z) => Some z
  | _ => None
  end.

(** A row clashes with the committed ones when its table already has a row
    with its [id]. *)
Definition clashes (rows : list (string * pydict)) (r : string * pydict) : bool :=
  existsb (λ x, bool_decide (x.1 = r.1 ∧ row_id x.2 = row_id r.2)) rows.

Definition column_values (cols : list string) (r : pydict) : row :=
  map (λ c, default VNone (dict_get r c)) cols.

(** Rows of a table; predicates are not supported and make the execution
    fail. *)
Definition run (q : query) (s : store) : result (list row) :=
  match q_where q, dict_get schema (q_table q) with
  | Some _, _ => Raise (SQLAlchemyError "unsupported predicate")
  | None, None => Raise (SQLAlchemyError "no such table")
  | None, Some cols =>
      let rows := map (λ x, column_values cols x.2)
                    (List.filter (λ x, bool_decide (x.1 = q_table q)) (db s)) in
      Return match q_limit q with
             | Some n => take (Z.to_nat n) rows
             | None => rows
             end
  end.

Definition backend : Backend := {|
  Session := store;
  Query := query;
  Mapped := string * pydict;
  connect _ := Return {| db := []; pending := [] |};
  reflect _ := Return schema;
  select table := Return {| q_table := table; q_where := None; q_limit := None |};
  query_where q c :=
    Return {| q_table := q_table q; q_where := Some c; q_limit := q_limit q |};
  query_limit q n :=
    Return {| q_table := q_table q; q_where := q_where q; q_limit := Some n |};
  execute_fetchall q s := (run q s, s);
  execute_fetchone q s := (rows ← run q s; Return (head rows), s);
  table_instance table data _ := Return (table, data);
  session_add instance s :=
    (Return (), {| db := db s; pending := pending s ++ [instance] |});
  session_commit s :=
    if existsb (clashes (db s)) (pending s)
    then (Raise (SQLAlchemyError "UNIQUE constraint failed"), s)
    else (Return (), {| db := db s ++ pending s; pending := [] |});
  session_rollback s := (Return (), {| db := db s; pending := [] |})
|}.

(** A driver over the store with [Book] bound to the table [books]. *)
Definition driver (rows : list (string * pydict)) : @Driver backend :=
  @Build_Driver backend {["books" := Book]} (list_to_map schema) [] ∅
    {| db := rows; pending := [] |} [].

(** A driver created with [model_maps = {'library': 'books'}] and the
    given models. *)
Definition mapped_driver (models_ : gmap string ModelClass) : @Driver backend :=
  @Build_Driver backend models_ (list_to_map schema) [("library", "books")]
    {["books" := "library"]} {| db := []; pending := [] |} [].

Definition book (id_ author : value) : value :=
  VDict [("id", id_); ("author", author)].

(** [class Member(Model)] with [id: int] and [nickname: int]: a model with one
    field more than the table [authors] has columns. *)
Definition Member : ModelClass := {|
  mc_name := "Member";
  mc_bases := ["Model"; "BaseModel"];
  mc_config := config "id" ∅;
  mc_fields := [("id", int_field); ("nickname", int_field)]
|}.

(** A driver over the store with [Member] bound to the table [authors]. *)
Definition members_driver : @Driver backend :=
  @Build_Driver backend {["authors" := Member]} (list_to_map schema) [] ∅
    {| db := []; pending := [] |} [].

(** A store that cannot commit: committing a row of [books] raises an error
    that is no backend error, committing anything else raises a backend
    error, and rolling back raises as well.  The session is the list of the
    rows added. *)
Definition broken : Backend := {|
  Session := list (string * pydict);
  Query := string;
  Mapped := string * pydict;
  connect _ := Return [];
  reflect _ := Return schema;
  select table := Return table;
  query_where q _ := Return q;
  query_limit q _ := Return q;
  execute_fetchall _ s := (Return [], s);
  execute_fetchone _ s := (Return None, s);
  table_instance table data _ := Return (table, data);
  session_add instance s := (Return (), (s ++ [instance])%list);
  session_commit s :=
    match s with
    | ("books", _) :: _ => (Raise (TypeError "not a mapped class"), s)
    | _ => (Raise (SQLAlchemyError "connection closed"), s)
    end;
  session_rollback s := (Raise (SQLAlchemyError "cannot roll back"), s)
|}.

(** A driver over the broken store, with [Book] bound to [books] and
    [Author] to [authors]. *)
Definition broken_driver : @Driver broken :=
  @Build_Driver broken {["books" := Book; "authors" := Author]}
    (list_to_map schema) [] ∅ [] [].
End Demo.

(** ** Vocabulary of the statements *)

(** The names of the fields typed as partial references, in declaration
    order. *)
Definition partial_fields (anns : list (string * annotation)) : list string :=
  (List.filter (λ kv, match kv.2 with APartialRef _ => true | _ => false end)
     anns).*1.

(** Every partial reference of the declaration refers to a subclass of
    [Model]. *)
Definition refers_to_models (anns : list (string * annotation)) : Prop :=
  Forall (λ kv, match kv.2 with
                | APartialRef (ArgModel _) | AOther | APostponed _ => True
                | APartialRef _ => False
                end) anns.

(** The declaration's configuration resolves to the [Config] [c]: it is [c]
    itself, or a mapping from which [Config] builds [c]. *)
Definition config_resolves `{Pydantic} (cls : class_obj) (c : Config) : Prop :=
  _config cls = Some (CConfig c)
  ∨ ∃ r, _config cls = Some (CDict r) ∧ Config_init r = Return c.

(** The message [msg] names [f]. *)
Definition names (msg f : string) : Prop :=
  ∃ pre post, msg = pre +:+ f +:+ post.

Section driver_vocabulary.
Context `{Backend}.

(** A sequence of [map_to_model] calls, each with its keyword arguments. *)
Definition map_to_model_calls (calls : list (list (string * string)))
    (self : Driver) : Driver :=
  foldl (λ self kwds, map_to_model kwds self) self calls.

(** [n] calls of [next], up to the first that raises. *)
Fixpoint nexts (n : nat) (self : Driver) (g : generator)
    : result (list pydict) * generator :=
  match n with
  | O => (Return [], g)
  | S n =>
      match next self g with
      | (Return data, g) =>
          match nexts n self g with
          | (Return rest, g) => (Return (data :: rest), g)
          | (Raise e, g) => (Raise e, g)
          end
      | (Raise e, g) => (Raise e, g)
      end
  end.
End driver_vocabulary.

(** ** Properties of models/core.py *)

Lemma append_assoc (s1 s2 s3 : string) : (s1 +:+ s2) +:+ s3 = s1 +:+ s2 +:+ s3.
Proof.
  induction s1 as [|a s1 IH]; [done |].
  change (String a ((s1 +:+ s2) +:+ s3) = String a (s1 +:+ s2 +:+ s3)).
  by f_equal.
Qed.

Lemma append_empty_r (s : string) : s = s +:+ "".
Proof.
  induction s as [|a s IH]; [done |].
  change (String a s = String a (s +:+ "")). by f_equal.
Qed.

Lemma join_names (sep f : string) (l : list string) :
  f ∈ l → names (join sep l) f.
Proof.
  induction l as [|x l IH]; intros Hin; [by apply elem_of_nil in Hin |].
  apply elem_of_cons in Hin as [-> | Hin].
  - destruct l as [|y l]; simpl.
    + exists "", "". apply append_empty_r.
    + by exists "", (sep +:+ join sep (y :: l)).
  - destruct (IH Hin) as (pre & post & Heq).
    destruct l as [|y l]; [by apply elem_of_nil in Hin |].
    exists (x +:+ sep +:+ pre), post.
    change (join sep (x :: y :: l)) with (x +:+ sep +:+ join sep (y :: l)).
    by rewrite Heq, !append_assoc.
Qed.

Lemma _read_partials_models (anns : list (string * annotation)) :
  refers_to_models anns → _read_partials anns = Return (partial_fields anns).
Proof.
  unfold refers_to_models, partial_fields.
  induction 1 as [|[k a] anns Ha _ IH]; [done |].
  destruct a as [[m| |]| |t]; simpl in *; try done.
  by rewrite IH.
Qed.

(** C1.  [PartialRef.validate] on a field referring to [type_]: an instance
    of [type_] is returned as it is; any other value is handed to the
    validation of [type_]'s primary-key field, the one [search_by] names.
    When that succeeds its coerced value is returned, and is what the partial
    field yields for storing; when it fails a [ValidationError] carrying the
    primary-key field's error is raised, which the partial field reports under
    its own location. *)
Theorem PartialRef_validate_coercion (type_ : ModelClass) (v : value) :
  (isinstance v type_ = true → PartialRef_validate type_ v = Return v)
  ∧ (isinstance v type_ = false →
     ∀ primary_field,
       dict_get (mc_fields type_) (search_by (mc_config type_)) = Some primary_field →
       (∀ valid_value,
          fld_validate primary_field v [] (search_by (mc_config type_))
            = Return (valid_value, None) →
          PartialRef_validate type_ v = Return valid_value
          ∧ ∀ values loc,
              fld_validate (partial_field type_) v values loc
                = Return (valid_value, None))
       ∧ (∀ x err,
            fld_validate primary_field v [] (search_by (mc_config type_))
              = Return (x, Some err) →
            PartialRef_validate type_ v = Raise (ValidationError [err] "PartialRef")
            ∧ ∀ values loc,
                fld_validate (partial_field type_) v values loc
                  = Return (v, Some (ValidationError [err] "PartialRef", loc)))).
Proof.
  split.
  - intros Hinst. unfold PartialRef_validate. by rewrite Hinst.
  - intros Hinst primary_field Hpk.
    assert (Hv : PartialRef_validate type_ v
                 = '(valid_value, err) ←
                     fld_validate primary_field v [] (search_by (mc_config type_));
                   match err with
                   | Some err => Raise (ValidationError [err] "PartialRef")
                   | None => Return valid_value
                   end).
    { unfold PartialRef_validate, dict_getitem. by rewrite Hinst, Hpk. }
    split.
    + intros valid_value Hok. rewrite Hok in Hv. simpl in Hv.
      split; [done |]. intros values loc. simpl. by rewrite Hv.
    + intros x err Hfail. rewrite Hfail in Hv. simpl in Hv.
      split; [done |]. intros values loc. simpl. by rewrite Hv.
Qed.

(** Validation stores under a partial field what [PartialRef.validate]
    returned for it. *)
Lemma validate_model_stores_partial (type_ : ModelClass) (name : string)
    (rest : list (string * ModelField)) (input values : pydict)
    (errors : list ErrorWrapper) (v x : value) :
  dict_get input name = Some v →
  PartialRef_validate type_ v = Return x →
  validate_model ((name, partial_field type_) :: rest) input values errors
  = validate_model rest input (dict_set values name x) errors.
Proof. intros Hv Hx. simpl. by rewrite Hv, Hx. Qed.

(** On the model [Book]: the key when given a key, the instance when given an
    instance. *)
Example Book_stores_key :
  model_init Demo.Book [("id", VInt 1); ("author", VInt 7)]
  = Return (VInst ["Book"; "Model"; "BaseModel"] [("id", VInt 1); ("author", VInt 7)]).
Proof. reflexivity. Qed.

Example Book_keeps_instance :
  let author := VInst ["Author"; "Model"; "BaseModel"] [("id", VInt 7)] in
  model_init Demo.Book [("id", VInt 1); ("author", author)]
  = Return (VInst ["Book"; "Model"; "BaseModel"] [("id", VInt 1); ("author", author)]).
Proof. reflexivity. Qed.

Lemma PartialRef_validate_coercion_witness :
  PartialRef_validate Demo.Author (VInst ["Author"; "Model"; "BaseModel"] [("id", VInt 7)])
    = Return (VInst ["Author"; "Model"; "BaseModel"] [("id", VInt 7)])
  ∧ PartialRef_validate Demo.Author (VInt 7) = Return (VInt 7)
  ∧ PartialRef_validate Demo.Author (VStr "abc")
    = Raise (ValidationError [(TypeError "value is not a valid integer", "id")]
               "PartialRef").
Proof.
  split; [| split].
  - apply (PartialRef_validate_coercion Demo.Author). reflexivity.
  - eapply (PartialRef_validate_coercion Demo.Author (VInt 7)); reflexivity.
  - eapply (PartialRef_validate_coercion Demo.Author (VStr "abc")); reflexivity.
Defined.

Lemma _verify_partials_resolved (cls : class_obj) (c : Config) :
  _config cls = Some (CConfig c) →
  refers_to_models (annotations cls) →
  _verify_partials cls
  = match filter (λ i, partials c !! i = None) (partial_fields (annotations cls)) with
    | [] => Return {| annotations := annotations cls;
                      _config := _config cls;
                      ezycore_internal__partials :=
                        Some (partial_fields (annotations cls)) |}
    | missing =>
        Raise (ValueError ("Missing partial definitions for: " +:+ join ", " missing))
    end.
Proof.
  intros Hc Hm. unfold _verify_partials.
  rewrite (_read_partials_models _ Hm). simpl. rewrite Hc. simpl.
  by destruct (filter _ _).
Qed.

Lemma _read_partials_Return (anns : list (string * annotation)) (ks : list string) :
  _read_partials anns = Return ks → ks = partial_fields anns.
Proof.
  unfold partial_fields. revert ks.
  induction anns as [|[k a] anns IH]; intros ks; simpl; [by intros [= <-] |].
  destruct a as [arg| |t]; simpl; [| apply IH | apply IH].
  destruct (issubclass_Model arg) as [[|]|]; simpl; try done.
  destruct (_read_partials anns) as [ks'|]; simpl; [| done].
  intros [= <-]. f_equal. by apply IH.
Qed.

Lemma _verify_partials_missing (cls : class_obj) (c : Config) (f0 : string) :
  _config cls = Some (CConfig c) →
  f0 ∈ partial_fields (annotations cls) →
  partials c !! f0 = None →
  ∃ e, _verify_partials cls = Raise e.
Proof.
  intros Hc Hin Habs. unfold _verify_partials.
  destruct (_read_partials (annotations cls)) as [ks|] eqn:Hks; simpl; eauto.
  apply _read_partials_Return in Hks as ->. rewrite Hc. simpl.
  destruct (filter _ _) as [|f missing] eqn:Hf; eauto.
  assert (Hf0 : f0 ∈ filter (λ i, partials c !! i = None)
                       (partial_fields (annotations cls)))
    by by apply list_elem_of_filter.
  rewrite Hf in Hf0. by apply elem_of_nil in Hf0.
Qed.

Lemma _verify_partials_config (cls cls' : class_obj) :
  _verify_partials cls = Return cls' → _config cls' = _config cls.
Proof.
  unfold _verify_partials.
  destruct (_read_partials (annotations cls)) as [ps|]; simpl; [| done].
  destruct (_config cls) as [[| c |]|]; simpl; try done.
  destruct (filter _ ps); [| done].
  by intros [= <-].
Qed.

(** X20.  A declaration one of whose own annotations is an evaluated
    [PartialRef[...]], on a field [f0] that the partials of its configuration
    do not list, never succeeds: [__init_subclass__] raises, so the class
    statement fails before any instance can be built.  When the declaration
    reaches the check, that is when its configuration resolves to [c] and all
    these annotations refer to models, the error is the [ValueError] whose
    message joins the names of all the absent fields, each of which it
    names. *)
Theorem _verify_partials_names_all_missing `{Pydantic}
    (cls : class_obj) (f0 : string) :
  f0 ∈ partial_fields (annotations cls) →
  ((∀ c, config_resolves cls c → partials c !! f0 = None) →
   ∃ e, __init_subclass__ cls = Raise e)
  ∧ (∀ c,
       refers_to_models (annotations cls) →
       config_resolves cls c →
       partials c !! f0 = None →
       let missing :=
         filter (λ f, partials c !! f = None) (partial_fields (annotations cls)) in
       __init_subclass__ cls
       = Raise (ValueError ("Missing partial definitions for: " +:+ join ", " missing))
       ∧ ∀ f, f ∈ partial_fields (annotations cls) → partials c !! f = None →
              names (join ", " missing) f).
Proof.
  intros Hin. split.
  - intros Habs. unfold __init_subclass__.
    destruct (_config cls) as [[r | c | v]|] eqn:Hc; simpl; eauto.
    + destruct (Config_init r) as [c|] eqn:Hr; simpl; eauto.
      apply _verify_partials_missing with (c := c) (f0 := f0); [done | done |].
      apply Habs. right. by exists r.
    + apply _verify_partials_missing with (c := c) (f0 := f0); [done | done |].
      apply Habs. by left.
  - intros c Hm Hc Habs missing. split.
    + assert (Hne : missing ≠ []).
      { intros Hnil. assert (Hf0 : f0 ∈ missing) by by apply list_elem_of_filter.
        rewrite Hnil in Hf0. by apply elem_of_nil in Hf0. }
      unfold __init_subclass__.
      destruct Hc as [Hc | (r & Hc & Hr)]; rewrite Hc; simpl.
      * rewrite (_verify_partials_resolved cls c Hc Hm).
        fold missing. by destruct missing.
      * rewrite Hr. simpl.
        match goal with
        | |- _verify_partials ?x = _ =>
            rewrite (_verify_partials_resolved x c eq_refl Hm)
        end. simpl.
        fold missing. by destruct missing.
    + intros f Hf Hnone. apply join_names. by apply list_elem_of_filter.
Qed.

(** C5, on the code.  [_read_partials] sees the partial references of a class
    only through the evaluated annotations of the class itself.  In a module
    under [from __future__ import annotations] every annotation is a string:
    then no partial field is found, and a declaration whose configuration
    resolves succeeds, with an empty tuple of partials, whatever the partials
    of its configuration list or omit. *)
Theorem __init_subclass___misses_postponed_partials `{Pydantic}
    (cls : class_obj) (c : Config) :
  Forall (λ kv, ∃ text, kv.2 = APostponed text) (annotations cls) →
  config_resolves cls c →
  __init_subclass__ cls
  = Return {| annotations := annotations cls;
              _config := Some (CConfig c);
              ezycore_internal__partials := Some [] |}.
Proof.
  intros Hpost Hc.
  assert (Hm : refers_to_models (annotations cls)).
  { unfold refers_to_models. eapply Forall_impl; [exact Hpost |].
    by intros [k a] [text ->]. }
  assert (Hnone : partial_fields (annotations cls) = []).
  { unfold partial_fields. induction Hpost as [|[k a] anns [text Ha] _ IH]; [done |].
    simpl in Ha. subst a. simpl. apply IH.
    unfold refers_to_models in Hm. by apply Forall_cons in Hm as [_ Hm]. }
  unfold __init_subclass__.
  destruct Hc as [Hc | (r & Hc & Hr)]; rewrite Hc; simpl.
  - rewrite (_verify_partials_resolved cls c Hc Hm), Hnone. simpl. by rewrite Hc.
  - rewrite Hr. simpl.
    match goal with
    | |- _verify_partials ?x = _ =>
        rewrite (_verify_partials_resolved x c eq_refl Hm)
    end. simpl. by rewrite Hnone.
Qed.

(** C6.  Without a [_config] the declaration raises [ModalMissingConfig]; a
    mapping is replaced by the [Config] built from it and a [Config] instance
    is kept as it is before the partials are verified; hence a declaration
    that succeeds always carries a [Config], the one its configuration
    resolves to. *)
Theorem __init_subclass___resolves_config `{Pydantic} (cls : class_obj) :
  (_config cls = None →
   __init_subclass__ cls = Raise (ModalMissingConfig "_config variable not found"))
  ∧ (∀ r c, _config cls = Some (CDict r) → Config_init r = Return c →
       __init_subclass__ cls
       = _verify_partials
           {| annotations := annotations cls;
              _config := Some (CConfig c);
              ezycore_internal__partials := ezycore_internal__partials cls |})
  ∧ (∀ c, _config cls = Some (CConfig c) →
       __init_subclass__ cls = _verify_partials cls)
  ∧ (∀ cls', __init_subclass__ cls = Return cls' →
       ∃ c, _config cls' = Some (CConfig c) ∧ config_resolves cls c).
Proof.
  unfold __init_subclass__. repeat split.
  - by intros ->.
  - intros r c -> Hr. simpl. by rewrite Hr.
  - by intros c ->.
  - intros cls'. destruct (_config cls) as [[r | c | v]|] eqn:Hc; simpl; try done.
    + destruct (Config_init r) as [c|] eqn:Hr; simpl; [| done].
      intros Hv. apply _verify_partials_config in Hv. simpl in Hv.
      exists c. split; [done |]. right. by exists r.
    + intros Hv. apply _verify_partials_config in Hv. rewrite Hc in Hv.
      exists c. split; [done |]. by left.
Qed.

Lemma _verify_partials_names_all_missing_witness :
  @__init_subclass__ Demo.pydantic
    (Demo.Book_decl (Some (CDict [("search_by", VStr "id")])))
  = Raise (ValueError "Missing partial definitions for: author, editor").
Proof.
  refine (proj1 (proj2 (@_verify_partials_names_all_missing Demo.pydantic
                          (Demo.Book_decl (Some (CDict [("search_by", VStr "id")])))
                          "author" _)
                   (Demo.config "id" ∅) _ _ _)).
  - vm_compute. apply list_elem_of_here.
  - repeat constructor.
  - right. eexists. split; reflexivity.
  - reflexivity.
Defined.

Lemma __init_subclass___misses_postponed_partials_witness :
  @__init_subclass__ Demo.pydantic
    {| annotations := [("id", APostponed "int");
                       ("author", APostponed "PartialRef[Author]")];
       _config := Some (CDict [("search_by", VStr "id")]);
       ezycore_internal__partials := None |}
  = Return {| annotations := [("id", APostponed "int");
                              ("author", APostponed "PartialRef[Author]")];
              _config := Some (CConfig (Demo.config "id" ∅));
              ezycore_internal__partials := Some [] |}.
Proof.
  apply (@__init_subclass___misses_postponed_partials Demo.pydantic
           {| annotations := [("id", APostponed "int");
                              ("author", APostponed "PartialRef[Author]")];
              _config := Some (CDict [("search_by", VStr "id")]);
              ezycore_internal__partials := None |}
           (Demo.config "id" ∅)).
  - repeat constructor; by eexists.
  - right. eexists. split; reflexivity.
Defined.

Lemma __init_subclass___resolves_config_witness :
  @__init_subclass__ Demo.pydantic (Demo.Book_decl None)
  = Raise (ModalMissingConfig "_config variable not found")
  ∧ @__init_subclass__ Demo.pydantic
      (Demo.Book_decl (Some (CDict [("search_by", VStr "id")])))
    = _verify_partials (Demo.Book_decl (Some (CConfig (Demo.config "id" ∅)))).
Proof.
  split.
  - apply (@__init_subclass___resolves_config Demo.pydantic (Demo.Book_decl None)).
    reflexivity.
  - apply (@__init_subclass___resolves_config Demo.pydantic
             (Demo.Book_decl (Some (CDict [("search_by", VStr "id")])))
             ) with (r := [("search_by", VStr "id")]); reflexivity.
Defined.

(** ** Properties of drivers/sqlalchemy_driver.py *)

Section location_map.
Context `{Backend}.

Lemma invert_snoc (l : list (string * string)) (kv : string * string) :
  invert (l ++ [kv]) = <[kv.2 := kv.1]> (invert l).
Proof. unfold invert. by rewrite foldl_snoc. Qed.

(** The inverse binds a table to the last key, in iteration order, that is
    mapped to it. *)
Lemma invert_lookup (l : list (string * string)) (v : string) :
  invert l !! v = fst <$> last (filter (λ kv, kv.2 = v) l).
Proof.
  induction l as [|kv l IH] using rev_ind; [done |].
  rewrite invert_snoc, filter_app, filter_cons, filter_nil.
  case_decide as Hv.
  - rewrite last_snoc, <- Hv. simpl. apply lookup_insert_eq.
  - rewrite app_nil_r, lookup_insert_ne by done. apply IH.
Qed.

Lemma invert_lookup_unique (l : list (string * string)) (k v : string) :
  (k, v) ∈ l → (∀ k', (k', v) ∈ l → k' = k) → invert l !! v = Some k.
Proof.
  intros Hin Huniq. rewrite invert_lookup.
  destruct (last (filter (λ kv, kv.2 = v) l)) as [[k' v']|] eqn:Hlast.
  - apply last_Some_elem_of, list_elem_of_filter in Hlast as [Hv Hl].
    simpl in Hv. subst v'. simpl. f_equal. by apply Huniq.
  - apply last_None in Hlast.
    assert (Hf : (k, v) ∈ filter (λ kv, kv.2 = v) l) by by apply list_elem_of_filter.
    rewrite Hlast in Hf. by apply elem_of_nil in Hf.
Qed.

Lemma __init___rev_map (url : string) (ms : gmap string ModelClass)
    (mm : list (string * string)) (self : Driver) :
  __init__ url ms mm = Return self → rev_map self = invert (maps self).
Proof.
  unfold __init__, _read_heads.
  destruct (connect url) as [s|]; simpl; [| done].
  destruct (reflect s) as [tables|]; simpl; [| done].
  by intros [= <-].
Qed.

Lemma __init___maps (url : string) (ms : gmap string ModelClass)
    (mm : list (string * string)) (self : Driver) :
  __init__ url ms mm = Return self → maps self = mm.
Proof.
  unfold __init__, _read_heads.
  destruct (connect url) as [s|]; simpl; [| done].
  destruct (reflect s) as [tables|]; simpl; [| done].
  by intros [= <-].
Qed.

Lemma view_Some (w : World) (d : nat) (self : Driver) :
  view w d = Some self →
  ∃ o, objects w !! d = Some o
       ∧ models_heap w !! models_ref o = Some (models self)
       ∧ maps_heap w !! maps_ref o = Some (maps self)
       ∧ rev_map self = obj_rev_map o.
Proof.
  unfold view. destruct (objects w !! d) as [o|]; simpl; [| done].
  destruct (models_heap w !! models_ref o) as [ms|] eqn:Hms; simpl; [| done].
  destruct (maps_heap w !! maps_ref o) as [mm|] eqn:Hmm; simpl; [| done].
  intros [= <-]. by exists o.
Qed.

Lemma view_store_eq (w : World) (d : nat) (self0 self : Driver) :
  view w d = Some self0 → view (store d self w) d = Some self.
Proof.
  intros (o & Ho & Hms & Hmm & _)%view_Some.
  unfold store, view. rewrite Ho. simpl.
  rewrite list_lookup_insert_eq by by eapply lookup_lt_Some. simpl.
  rewrite list_lookup_insert_eq by by eapply lookup_lt_Some. simpl.
  rewrite list_lookup_insert_eq by by eapply lookup_lt_Some. simpl.
  by destruct self.
Qed.

Lemma view_store_ne (w : World) (d d' : nat) (self x : Driver) :
  view w d = Some self →
  d' ≠ d →
  maps_ref_of w d' ≠ maps_ref_of w d →
  ∃ self', view (store d' x w) d = Some self'
           ∧ maps self' = maps self ∧ rev_map self' = rev_map self.
Proof.
  intros Hview Hd Href.
  pose proof Hview as (o & Ho & Hms & Hmm & Hrev)%view_Some.
  unfold store. destruct (objects w !! d') as [o'|] eqn:Ho'; [| by exists self].
  assert (Hne : maps_ref o' ≠ maps_ref o).
  { intros Heq. apply Href. unfold maps_ref_of. rewrite Ho, Ho'. simpl. by f_equal. }
  unfold view. simpl.
  rewrite list_lookup_insert_ne, Ho by done. simpl.
  assert (Hsome : is_Some (<[models_ref o' := models x]> (models_heap w)
                             !! models_ref o)).
  { apply lookup_lt_is_Some. rewrite length_insert. by eapply lookup_lt_Some. }
  destruct Hsome as [ms' ->]. simpl.
  rewrite list_lookup_insert_ne, Hmm by done. simpl.
  eexists. split; [done |]. by simpl.
Qed.

Lemma in_step_new_driver (url : string) (ma pa : option nat) (w0 w : World)
    (d : nat) :
  new_driver url ma pa w0 = Return (d, w) → in_step w d.
Proof.
  unfold new_driver.
  destruct (models_heap w0 !! _) as [ms|] eqn:Hms; [| done].
  destruct (maps_heap w0 !! _) as [mm|] eqn:Hmm; [| done].
  destruct (__init__ url ms mm) as [self|] eqn:Hinit; simpl; [| done].
  intros [= <- <-]. unfold in_step, view. simpl.
  rewrite list_lookup_middle by done. simpl. rewrite Hms, Hmm. simpl.
  eexists. split; [done |]. simpl.
  rewrite (__init___rev_map _ _ _ _ Hinit). by rewrite (__init___maps _ _ _ _ Hinit).
Qed.

Lemma in_step_call (w : World) (d : nat) (kwds : list (string * string)) :
  is_Some (view w d) → in_step (call_map_to_model d kwds w) d.
Proof.
  intros [self Hview]. unfold call_map_to_model. rewrite Hview.
  exists (map_to_model kwds self). split; [by eapply view_store_eq | done].
Qed.

Lemma in_step_fresh (w : World) (d : nat) : fresh_from_maps w d → in_step w d.
Proof.
  intros [(url & ma & pa & w0 & Hnew) | (kwds & w0 & Hview & ->)].
  - by eapply in_step_new_driver.
  - by apply in_step_call.
Qed.

Lemma in_step_run_step (w : World) (d : nat) (s : step) :
  in_step w d →
  match s with
  | MapToModel d' _ => d' = d ∨ maps_ref_of w d' ≠ maps_ref_of w d
  | _ => True
  end →
  in_step (run_step s w) d.
Proof.
  intros (self & Hview & Hinv) Hcond.
  pose proof Hview as (o & Ho & Hms & Hmm & Hrev)%view_Some.
  destruct s as [items | ms | url ma pa | d' kwds]; simpl.
  - exists self. split; [| done]. rewrite <- Hview. unfold view. simpl.
    rewrite Ho. simpl. rewrite Hms. simpl.
    by rewrite (lookup_app_l_Some _ _ _ _ Hmm), Hmm.
  - exists self. split; [| done]. rewrite <- Hview. unfold view. simpl.
    rewrite Ho. simpl.
    by rewrite (lookup_app_l_Some _ _ _ _ Hms), Hms.
  - destruct (new_driver url ma pa w) as [[d2 w2]|e] eqn:Hnew; [| by exists self].
    unfold new_driver in Hnew.
    destruct (models_heap w !! default default_models ma) as [ms'|]; [| done].
    destruct (maps_heap w !! default default_model_maps pa) as [mm'|]; [| done].
    destruct (__init__ url ms' mm') as [self2|]; simpl in Hnew; [| done].
    injection Hnew as <- <-.
    exists self. split; [| done]. rewrite <- Hview. unfold view. simpl.
    by rewrite (lookup_app_l_Some _ _ _ _ Ho), Ho.
  - destruct (decide (d' = d)) as [-> | Hne].
    + apply in_step_call. by exists self.
    + destruct Hcond as [-> | Href]; [done |].
      unfold call_map_to_model.
      destruct (view w d') as [self2|]; [| by exists self].
      destruct (view_store_ne w d d' self (map_to_model kwds self2) Hview Hne Href)
        as (self' & Hview' & Hmaps & Hrev').
      exists self'. split; [done |]. by rewrite Hmaps, Hrev'.
Qed.

Lemma in_step_run (steps : list step) (w : World) (d : nat) :
  in_step w d → undisturbed d steps w → in_step (run steps w) d.
Proof.
  revert w. induction steps as [|s steps IH]; intros w Hin Hund; [done |].
  destruct Hund as [Hs Hund]. simpl. apply IH; [| done].
  by apply in_step_run_step.
Qed.

(** C3, as amended.  Take a driver that was just created or has just
    returned from [map_to_model], and any further steps of the program among
    which no other driver holding the same dict as this driver's [maps] calls
    [map_to_model].  Then [rev_map] sends the table of every pair of [maps]
    to the last key, in the iteration order of [maps], that is mapped to that
    table; so [rev_map[v] == k] holds for the pair [(k, v)] whenever no other
    key of [maps] is mapped to [v]. *)
Theorem rev_map_inverts_maps (w : World) (d : nat) (steps : list step) :
  fresh_from_maps w d →
  undisturbed d steps w →
  ∃ self,
    view (run steps w) d = Some self
    ∧ ∀ k v, (k, v) ∈ maps self →
        rev_map self !! v = fst <$> last (filter (λ kv, kv.2 = v) (maps self))
        ∧ ((∀ k', (k', v) ∈ maps self → k' = k) → rev_map self !! v = Some k).
Proof.
  intros Hfresh Hund.
  destruct (in_step_run steps w d (in_step_fresh w d Hfresh) Hund)
    as (self & Hview & Hinv).
  exists self. split; [done |]. intros k v Hin. rewrite Hinv. split.
  - apply invert_lookup.
  - intros Huniq. by apply invert_lookup_unique.
Qed.
End location_map.

(** C3, as stated, fails: after [map_to_model(a='t', b='t')] the pair
    [('a', 't')] is in [maps] while [rev_map['t']] is ['b']. *)
Lemma rev_map_collision :
  match @__init__ Demo.backend "sqlite://" ∅ [] with
  | Return self =>
      let self' := map_to_model_calls [[("a", "t"); ("b", "t")]] self in
      ("a", "t") ∈ maps self' ∧ rev_map self' !! "t" = Some "b"
      ∧ rev_map self' !! "t" ≠ Some "a"
  | Raise _ => False
  end.
Proof. vm_compute. split; [apply list_elem_of_here | split; [done | discriminate]]. Qed.

(** Among colliding keys the one kept is the last in iteration order, which
    need not be the last one written: re-binding ['a'] keeps its place before
    ['b']. *)
Example rev_map_keeps_iteration_order :
  rev_map (map_to_model_calls [[("a", "s")]; [("b", "t")]; [("a", "t")]]
             (Demo.driver []))
  !! "t" = Some "b".
Proof. reflexivity. Qed.

(** On two drivers created with the default [model_maps], which is one dict:
    a call on the second changes the [maps] of the first and leaves its
    [rev_map] behind. *)
Example rev_map_behind_shared_maps :
  (λ self, (maps self, rev_map self !! "t", rev_map self !! "u"))
    <$> view (run [NewDriver "sqlite://" None None; NewDriver "sqlite://" None None;
                   MapToModel 0 [("a", "t")]; MapToModel 1 [("a", "u")]]
                (@initial_world Demo.backend)) 0
  = Some ([("a", "u")], Some "a", None).
Proof. reflexivity. Qed.

(** The default [models] is one dict as well: a model that [fetch] binds
    through one driver is found by the other. *)
Example models_shared_by_default :
  let w := run [NewDriver "sqlite://" None None; NewDriver "sqlite://" None None]
             (@initial_world Demo.backend) in
  let w' := (call (fetch "authors" "" (-1) (Some Demo.Author) false false) 0 w).2 in
  (λ self, mc_name <$> _get_model self "authors") <$> view w' 1
  = Some (Some "Author").
Proof. reflexivity. Qed.

Lemma rev_map_inverts_maps_witness :
  ∃ self,
    view (run [NewDriver "sqlite://" None None; MapToModel 0 [("a", "t")];
               NewDict [("x", "y")]; NewDriver "sqlite://" None (Some 1%nat);
               MapToModel 1 [("b", "t")]]
            (@initial_world Demo.backend)) 0 = Some self
    ∧ rev_map self !! "t" = Some "a".
Proof.
  destruct (@rev_map_inverts_maps Demo.backend
              (run [NewDriver "sqlite://" None None] initial_world) 0
              [MapToModel 0 [("a", "t")]; NewDict [("x", "y")];
               NewDriver "sqlite://" None (Some 1%nat); MapToModel 1 [("b", "t")]])
    as (self & Hview & Hinv).
  - left. exists "sqlite://", None, None, initial_world. reflexivity.
  - simpl. repeat split; [by left |]. right. vm_compute. discriminate.
  - exists self. split; [exact Hview |].
    pose proof Hview as Hself. vm_compute in Hself. injection Hself as <-.
    apply (Hinv "a" "t"); [apply list_elem_of_here |].
    intros k' [[= ->] | []%elem_of_nil]%elem_of_cons. reflexivity.
Defined.

Section reading.
Context `{Backend}.

(** A failure while the query is built is a failure of the [try] block. *)
Lemma fetch_try_construction (table condition : string) (limit_result : Z)
    (s : Session) (e : exn) :
  fetch_query table condition limit_result = Raise e →
  fetch_try table condition limit_result s = (Raise e, s).
Proof. unfold fetch_try. by intros ->. Qed.

Lemma fetch_one_try_construction (table : string) (condition : option string)
    (s : Session) (e : exn) :
  fetch_one_query table condition = Raise e →
  fetch_one_try table condition s = (Raise e, s).
Proof. unfold fetch_one_try. by intros ->. Qed.

(** C4.  When the [try] block of [fetch] or of [fetch_one] raises a backend
    error, in particular when building the query does, the error is printed
    and [None] is returned; [None], not an empty sequence, is also returned
    when the query runs and matches no row. *)
Theorem fetch_returns_None_on_backend_error (self : Driver)
    (location condition : string) (condition1 : option string)
    (limit_result : Z) (model : option ModelClass)
    (no_handle ignore_model : bool) :
  let self1 := bind_model location model self in
  let table := default location (dict_get (maps self1) location) in
  (∀ msg s,
     fetch_try table condition limit_result (session self1)
       = (Raise (SQLAlchemyError msg), s) →
     fetch location condition limit_result model no_handle ignore_model self
     = (Return None, print ("Error fetching data: " +:+ msg) (set_session s self1)))
  ∧ (∀ s,
       fetch_try table condition limit_result (session self1) = (Return [], s) →
       fetch location condition limit_result model no_handle ignore_model self
       = (Return None, set_session s self1))
  ∧ (∀ msg s,
       fetch_one_try table condition1 (session self1)
         = (Raise (SQLAlchemyError msg), s) →
       fetch_one location condition1 model no_handle ignore_model self
       = (Return None, print ("Error fetching data: " +:+ msg) (set_session s self1)))
  ∧ (∀ s,
       fetch_one_try table condition1 (session self1) = (Return None, s) →
       fetch_one location condition1 model no_handle ignore_model self
       = (Return None, set_session s self1))
  ∧ (∀ msg,
       fetch_query table condition limit_result = Raise (SQLAlchemyError msg) →
       fetch location condition limit_result model no_handle ignore_model self
       = (Return None,
          print ("Error fetching data: " +:+ msg) (set_session (session self1) self1)))
  ∧ (∀ msg,
       fetch_one_query table condition1 = Raise (SQLAlchemyError msg) →
       fetch_one location condition1 model no_handle ignore_model self
       = (Return None,
          print ("Error fetching data: " +:+ msg) (set_session (session self1) self1))).
Proof.
  intros self1 table. unfold fetch, fetch_one. fold self1. fold table.
  repeat split.
  - by intros msg s ->.
  - by intros s ->.
  - by intros msg s ->.
  - by intros s ->.
  - intros msg Hq. by rewrite (fetch_try_construction _ _ _ _ _ Hq).
  - intros msg Hq. by rewrite (fetch_one_try_construction _ _ _ _ Hq).
Qed.

Lemma nexts_yields (self : Driver) (head : string) (model : option ModelClass)
    (pre rest : list row) (datas : list pydict) :
  Forall2 (λ r data, convert self head model r = Return data) pre datas →
  nexts (length pre) self (Suspended head model (pre ++ rest))
  = (Return datas, Suspended head model rest).
Proof.
  induction 1 as [|r data pre datas Hr _ IH]; [done |].
  simpl. rewrite Hr. simpl in IH. by rewrite IH.
Qed.

(** C10.  When the query runs and returns rows, [fetch] returns a generator
    that has converted nothing yet, whatever the rows are.  If a row fails
    the validation of the bound model, the elements before it are produced
    as usual and the [ValidationError] comes out of the call of [next] that
    asks for that row: it is raised, not turned into [None]. *)
Theorem fetch_validates_lazily (self : Driver) (location condition : string)
    (limit_result : Z) (model : option ModelClass) (ignore_model : bool)
    (results : list row) (s : Session) :
  let self1 := bind_model location model self in
  let table := default location (dict_get (maps self1) location) in
  let self' := set_session s self1 in
  let model' := if ignore_model then None else _get_model self1 location in
  fetch_try table condition limit_result (session self1) = (Return results, s) →
  results ≠ [] →
  fetch location condition limit_result model false ignore_model self
  = (Return (Some (Records (Suspended table model' results))), self')
  ∧ ∀ (pre : list row) (datas : list pydict) (result_ : row) (post : list row)
      (bound : ModelClass) (data : pydict) (e : exn),
      results = (pre ++ result_ :: post)%list →
      Forall2 (λ r d, convert self' table model' r = Return d) pre datas →
      model' = Some bound →
      zip_headers self' table 0 result_ [] = Return data →
      model_init bound data = Raise e →
      nexts (length pre) self' (Suspended table model' results)
      = (Return datas, Suspended table model' (result_ :: post))
      ∧ next self' (Suspended table model' (result_ :: post)) = (Raise e, Finished).
Proof.
  intros self1 table self' model' Htry Hne. split.
  - unfold fetch. fold self1. fold table. rewrite Htry.
    by destruct results.
  - intros pre datas result_ post bound data e -> Hpre Hbound Hzip Hinit.
    split; [by apply nexts_yields |].
    unfold next, convert. rewrite Hzip, Hbound. simpl. by rewrite Hinit.
Qed.
End reading.

Lemma fetch_returns_None_on_backend_error_witness :
  (@fetch Demo.backend "books" "id = 1" (-1) None false false (Demo.driver [])).1
  = Return None.
Proof.
  refine (f_equal fst
            (proj1 (@fetch_returns_None_on_backend_error Demo.backend (Demo.driver [])
                      "books" "id = 1" None (-1) None false false)
               "unsupported predicate" _ eq_refl)).
Defined.

Lemma fetch_validates_lazily_witness :
  let rows := [("books", [("id", VInt 1); ("author", VInt 7)]);
               ("books", [("id", VInt 2); ("author", VStr "x")])] in
  (@fetch Demo.backend "books" "" (-1) None false false (Demo.driver rows)).1
  = Return (Some (Records (Suspended "books" (Some Demo.Book)
                             [[VInt 1; VInt 7]; [VInt 2; VStr "x"]])))
  ∧ nexts 1 (Demo.driver rows)
      (Suspended "books" (Some Demo.Book) [[VInt 1; VInt 7]; [VInt 2; VStr "x"]])
    = (Return [[("id", VInt 1); ("author", VInt 7)]],
       Suspended "books" (Some Demo.Book) [[VInt 2; VStr "x"]])
  ∧ next (Demo.driver rows) (Suspended "books" (Some Demo.Book) [[VInt 2; VStr "x"]])
    = (Raise (ValidationError
                [(ValidationError [(TypeError "value is not a valid integer", "id")]
                    "PartialRef", "author")] "Book"), Finished).
Proof.
  intros rows.
  pose proof (@fetch_validates_lazily Demo.backend (Demo.driver rows) "books" ""
                (-1) None false [[VInt 1; VInt 7]; [VInt 2; VStr "x"]]
                {| Demo.db := rows; Demo.pending := [] |} eq_refl
                ltac:(discriminate)) as [Hfetch Hnext].
  split; [exact (f_equal fst Hfetch) |].
  exact (Hnext [[VInt 1; VInt 7]] [[("id", VInt 1); ("author", VInt 7)]]
           [VInt 2; VStr "x"] [] Demo.Book
           [("id", VInt 2); ("author", VStr "x")]
           (ValidationError
              [(ValidationError [(TypeError "value is not a valid integer", "id")]
                  "PartialRef", "author")] "Book")
           eq_refl ltac:(repeat constructor) eq_refl eq_refl eq_refl).
Defined.

Section writing.
Context `{Backend}.

Lemma _model_fits_unbound (self : Driver) (location : string) :
  _get_model self location = None → _model_fits self location = Return false.
Proof. unfold _model_fits. by intros ->. Qed.

Lemma export_unfit (self : Driver) (location : string) (stream : list value)
    (include exclude : option (gset string)) :
  _model_fits self location = Return false →
  export location stream include exclude self
  = (Raise (AssertionError "Incorrect model or no model binded for this table"),
     self).
Proof. unfold export. by intros ->. Qed.

(** C7.  When no model is bound to the location, or when the columns the
    headers have for it are not all fields of the bound model, [export]
    fails on its assertion and leaves the driver, session included, as it
    was: no item of the stream is processed.  More generally [export] fails
    in this way unless [_model_fits] returns true. *)
Theorem export_asserts_model_fits (self : Driver) (location : string)
    (stream : list value) (include exclude : option (gset string)) :
  (_get_model self location = None
   ∨ (∃ model cols,
        _get_model self location = Some model
        ∧ headers self !! location = Some cols
        ∧ ¬ (list_to_set cols : gset string) ⊆ list_to_set (mc_fields model).*1) →
   export location stream include exclude self
   = (Raise (AssertionError "Incorrect model or no model binded for this table"),
      self))
  ∧ (_model_fits self location ≠ Return true →
     ∃ e, export location stream include exclude self = (Raise e, self)).
Proof.
  split.
  - intros [Hnone | (model & cols & Hm & Hcols & Hsub)]; apply export_unfit.
    + by apply _model_fits_unbound.
    + unfold _model_fits, getitem. rewrite Hm, Hcols. simpl.
      by rewrite bool_decide_eq_false_2.
  - intros Hfits. unfold export.
    destruct (_model_fits self location) as [[|]|e]; [done | eauto | eauto].
Qed.

(** C8, as amended.  For a location that is not a key of the headers, such
    as a logical key mapped to a table of another name: when a model is
    bound to it, [_model_fits] raises the lookup error instead of returning
    false, and so does [export], whatever [include] is, leaving the driver
    as it was; when no model is bound, [_model_fits] returns false and
    [export] fails on its assertion. *)
Theorem unreflected_location (self : Driver) (location : string)
    (stream : list value) (include exclude : option (gset string)) :
  headers self !! location = None →
  match _get_model self location with
  | Some _ =>
      _model_fits self location = Raise (KeyError location)
      ∧ export location stream include exclude self
        = (Raise (KeyError location), self)
  | None =>
      _model_fits self location = Return false
      ∧ export location stream include exclude self
        = (Raise (AssertionError "Incorrect model or no model binded for this table"),
           self)
  end.
Proof.
  intros Hhead. unfold export, _model_fits, getitem.
  destruct (_get_model self location); [by rewrite Hhead | done].
Qed.



Lemma export_loop_app (model : option ModelClass) (include exclude : gset string)
    (location : string) (pre post : list value) (self : Driver) :
  export_loop model include exclude location (pre ++ post) self
  = match export_loop model include exclude location pre self with
    | (Return _, self1) => export_loop model include exclude location post self1
    | (Raise e, self1) => (Raise e, self1)
    end.
Proof.
  revert self. induction pre as [|data pre IH]; intros self; [done |].
  simpl. destruct (export_item _ _ _ _ data self) as [[[]|e] self1]; [apply IH | done].
Qed.

(** C2, as amended.  Once the items before [data] have been processed:
    if [data] is prepared and its [add] or [commit] raises a backend error,
    the error is printed and the session rolled back; when the rollback
    returns, the loop goes on with the items after [data], and when the
    rollback itself raises, its exception leaves [export].  If instead
    preparing [data] raises, as when coercing it into the bound model fails,
    that exception leaves [export] with the driver as the earlier items left
    it, and no later item is attempted. *)
Theorem export_isolates_backend_errors_only (model : option ModelClass)
    (include exclude : gset string) (location : string)
    (pre post : list value) (data : value) (self self1 : Driver) :
  export_loop model include exclude location pre self = (Return (), self1) →
  (∀ instance msg s,
     export_prepare model include exclude location data self1 = Return instance →
     export_try instance (session self1) = (Raise (SQLAlchemyError msg), s) →
     let logged := print ("Error exporting data: " +:+ msg) (set_session s self1) in
     export_loop model include exclude location (pre ++ data :: post) self
     = match session_rollback s with
       | (Return _, s') =>
           export_loop model include exclude location post (set_session s' logged)
       | (Raise e, s') => (Raise e, set_session s' logged)
       end)
  ∧ (∀ e,
       export_prepare model include exclude location data self1 = Raise e →
       export_loop model include exclude location (pre ++ data :: post) self
       = (Raise e, self1))
  ∧ (∀ bound items e,
       model = Some bound →
       data = VDict items →
       model_init bound items = Raise e →
       export_loop model include exclude location (pre ++ data :: post) self
       = (Raise e, self1)).
Proof.
  intros Hpre. split; [| split].
  - intros instance msg s Hprep Htry logged.
    rewrite export_loop_app, Hpre. simpl.
    unfold export_item. rewrite Hprep, Htry. simpl. fold logged.
    by destruct (session_rollback s) as [[[]|e] s'].
  - intros e Hprep.
    rewrite export_loop_app, Hpre. simpl.
    unfold export_item. by rewrite Hprep.
  - intros bound items e -> -> Hinit.
    rewrite export_loop_app, Hpre. simpl.
    unfold export_item, export_prepare. by rewrite Hinit.
Qed.
End writing.

(** C2, as stated, fails: the first of two items cannot be coerced into
    [Book]; [export] raises its [ValidationError] and leaves the driver as it
    was: nothing is printed, nothing rolled back, and the second item is never
    handed to the session. *)
Lemma export_aborts_on_coercion_failure :
  @export Demo.backend "books"
    [Demo.book (VInt 2) (VStr "x"); Demo.book (VInt 3) (VInt 7)] None None
    (Demo.driver [])
  = (Raise (ValidationError
              [(ValidationError [(TypeError "value is not a valid integer", "id")]
                  "PartialRef", "author")] "Book"),
     Demo.driver []).
Proof. vm_compute. reflexivity. Qed.

Lemma export_isolates_backend_errors_only_witness :
  let cols : gset string := list_to_set ["id"; "author"] in
  let r := @export_loop Demo.backend (Some Demo.Book) cols ∅ "books"
             [Demo.book (VInt 1) (VInt 7); Demo.book (VInt 1) (VInt 8);
              Demo.book (VInt 3) (VInt 7)] (Demo.driver []) in
  r.1 = Return ()
  ∧ Demo.db (session r.2) = [("books", [("id", VInt 1); ("author", VInt 7)]);
                             ("books", [("id", VInt 3); ("author", VInt 7)])]
  ∧ stdout r.2 = ["Error exporting data: UNIQUE constraint failed"].
Proof.
  intros cols r. subst r.
  assert (Hpre : @export_loop Demo.backend (Some Demo.Book) cols ∅ "books"
                   [Demo.book (VInt 1) (VInt 7)] (Demo.driver [])
                 = (Return (),
                    Demo.driver [("books", [("id", VInt 1); ("author", VInt 7)])]))
    by reflexivity.
  pose proof
          (proj1 (@export_isolates_backend_errors_only Demo.backend (Some Demo.Book)
                    cols ∅ "books" [Demo.book (VInt 1) (VInt 7)]
                    [Demo.book (VInt 3) (VInt 7)] (Demo.book (VInt 1) (VInt 8))
                    (Demo.driver []) _ Hpre)
             ("books", [("id", VInt 1); ("author", VInt 8)])
             "UNIQUE constraint failed"
             {| Demo.db := [("books", [("id", VInt 1); ("author", VInt 7)])];
                Demo.pending := [("books", [("id", VInt 1); ("author", VInt 8)])] |}
             eq_refl eq_refl) as Hloop.
  simpl app in Hloop. rewrite Hloop. vm_compute. done.
Defined.

Lemma export_asserts_model_fits_witness :
  @export Demo.backend "authors" [VDict [("id", VInt 1)]] None None (Demo.driver [])
  = (Raise (AssertionError "Incorrect model or no model binded for this table"),
     Demo.driver []).
Proof.
  apply (@export_asserts_model_fits Demo.backend (Demo.driver []) "authors").
  left. reflexivity.
Defined.

(** C8, as stated, fails: ['library'] is a logical key mapped to the table
    ['books'] and is no key of the headers, yet with no model bound
    [_model_fits] returns false rather than raising, and [export] fails on
    its assertion, not on a lookup. *)
Lemma _model_fits_unbound_logical_key :
  let self := Demo.mapped_driver ∅ in
  dict_get (maps self) "library" = Some "books"
  ∧ headers self !! "library" = None
  ∧ _model_fits self "library" = Return false
  ∧ export "library" [Demo.book (VInt 1) (VInt 7)] None None self
    = (Raise (AssertionError "Incorrect model or no model binded for this table"),
       self).
Proof. vm_compute. done. Qed.

Lemma unreflected_location_witness :
  let self := Demo.mapped_driver {["library" := Demo.Book]} in
  _model_fits self "library" = Raise (KeyError "library")
  ∧ export "library" [Demo.book (VInt 1) (VInt 7)] (Some {["id"]}) None self
    = (Raise (KeyError "library"), self).
Proof.
  intros self.
  exact (@unreflected_location Demo.backend self "library"
           [Demo.book (VInt 1) (VInt 7)] (Some {["id"]}) None eq_refl).
Defined.


(** With an empty [include], a member is inserted with the one column of the
    table: neither with nothing, nor with the field that is no column. *)
Example export_empty_include_inserts_columns :
  Demo.db (session (@export Demo.backend "authors"
                      [VDict [("id", VInt 1); ("nickname", VInt 5)]]
                      (Some ∅) None Demo.members_driver).2)
  = [("authors", [("id", VInt 1)])].
Proof. vm_compute. reflexivity. Qed.

(** ** Further properties of models/core.py *)

Lemma _read_partials_Return_models (anns : list (string * annotation))
    (ks : list string) :
  _read_partials anns = Return ks → refers_to_models anns.
Proof.
  unfold refers_to_models. revert ks.
  induction anns as [|[k a] anns IH]; intros ks; simpl; [by constructor |].
  destruct a as [arg| |t]; simpl.
  - destruct arg as [m | n |]; simpl; try done.
    destruct (_read_partials anns) as [ks'|]; simpl; [| done].
    intros _. constructor; [done | by eapply IH].
  - intros Hks. constructor; [done | by eapply IH].
  - intros Hks. constructor; [done | by eapply IH].
Qed.

(** X1.  [_read_partials] runs to its end exactly when every partial
    reference of the class refers to a subclass of [Model], and then yields
    the names of the partial fields, all of them and nothing else, in
    declaration order. *)
Theorem _read_partials_succeeds_iff (anns : list (string * annotation))
    (ks : list string) :
  _read_partials anns = Return ks
  ↔ refers_to_models anns ∧ ks = partial_fields anns.
Proof.
  split.
  - intros Hks. split; [by eapply _read_partials_Return_models |].
    by apply _read_partials_Return.
  - intros [Hm ->]. by apply _read_partials_models.
Qed.




Lemma filter_missing_nil (c : Config) (ks : list string) :
  filter (λ i, partials c !! i = None) ks = []
  ↔ ∀ f, f ∈ ks → is_Some (partials c !! f).
Proof.
  split.
  - intros Hnil f Hf. destruct (partials c !! f) eqn:Hl; [by eexists |].
    assert (Hin : f ∈ filter (λ i, partials c !! i = None) ks)
      by by apply list_elem_of_filter.
    rewrite Hnil in Hin. by apply elem_of_nil in Hin.
  - intros Hall. destruct (filter _ ks) as [|f l] eqn:Hf; [done |].
    assert (Hin : f ∈ filter (λ i, partials c !! i = None) ks)
      by (rewrite Hf; apply list_elem_of_here).
    apply list_elem_of_filter in Hin as [Hnone Hin].
    destruct (Hall f Hin) as [x Hx]. congruence.
Qed.

Lemma _verify_partials_Return (cls cls' : class_obj) (c : Config) :
  _config cls = Some (CConfig c) →
  _verify_partials cls = Return cls'
  ↔ refers_to_models (annotations cls)
    ∧ (∀ f, f ∈ partial_fields (annotations cls) → is_Some (partials c !! f))
    ∧ cls' = {| annotations := annotations cls;
                _config := Some (CConfig c);
                ezycore_internal__partials :=
                  Some (partial_fields (annotations cls)) |}.
Proof.
  intros Hc. split.
  - intros Hv. unfold _verify_partials in Hv.
    destruct (_read_partials (annotations cls)) as [ks|] eqn:Hks; simpl in Hv;
      [| done].
    pose proof (_read_partials_Return_models _ _ Hks) as Hm.
    apply _read_partials_Return in Hks as ->.
    rewrite Hc in Hv. simpl in Hv.
    destruct (filter _ _) as [|f l] eqn:Hf; [| done].
    injection Hv as <-. split; [done |]. split; [| done].
    by apply filter_missing_nil.
  - intros (Hm & Hall & ->).
    rewrite (_verify_partials_resolved cls c Hc Hm).
    apply filter_missing_nil in Hall. by rewrite Hall, Hc.
Qed.

(** X3.  A declaration succeeds exactly when its configuration resolves to a
    [Config], all its partial references refer to models and each partial
    field is a key of the partials of that [Config]; the class then carries
    that [Config] and the tuple of its partial field names. *)
Theorem __init_subclass___succeeds_iff `{Pydantic} (cls cls' : class_obj) :
  __init_subclass__ cls = Return cls'
  ↔ ∃ c, config_resolves cls c
         ∧ refers_to_models (annotations cls)
         ∧ (∀ f, f ∈ partial_fields (annotations cls) → is_Some (partials c !! f))
         ∧ cls' = {| annotations := annotations cls;
                     _config := Some (CConfig c);
                     ezycore_internal__partials :=
                       Some (partial_fields (annotations cls)) |}.
Proof.
  unfold __init_subclass__. split.
  - destruct (_config cls) as [[r | c | v]|] eqn:Hc; simpl; try done.
    + destruct (Config_init r) as [c|] eqn:Hr; simpl; [| done].
      intros Hv. apply _verify_partials_Return with (c := c) in Hv; [| done].
      exists c. split; [right; by exists r | done].
    + intros Hv. apply _verify_partials_Return with (c := c) in Hv; [| done].
      exists c. split; [by left | done].
  - intros (c & [Hc | (r & Hc & Hr)] & Hm & Hall & ->); rewrite Hc; simpl.
    + by apply _verify_partials_Return with (c := c).
    + rewrite Hr. simpl. by apply _verify_partials_Return with (c := c).
Qed.

(** X4.  Every outcome of [PartialRef.validate] is accounted for: what it
    returns is the value itself, when it is an instance of the target, or
    else the coerced value of the primary-key field's validation; what it
    raises, on a value that is no instance, is the [KeyError] of a
    [search_by] that names no field of the target, an exception of the
    primary-key field's validation, or the [ValidationError] holding that
    field's error. *)
Theorem PartialRef_validate_outcomes (type_ : ModelClass) (v : value) :
  let primary_key := search_by (mc_config type_) in
  match PartialRef_validate type_ v with
  | Return x =>
      (isinstance v type_ = true ∧ x = v)
      ∨ (isinstance v type_ = false
         ∧ ∃ field, dict_get (mc_fields type_) primary_key = Some field
                    ∧ fld_validate field v [] primary_key = Return (x, None))
  | Raise e =>
      isinstance v type_ = false
      ∧ ((dict_get (mc_fields type_) primary_key = None ∧ e = KeyError primary_key)
         ∨ ∃ field, dict_get (mc_fields type_) primary_key = Some field
                    ∧ (fld_validate field v [] primary_key = Raise e
                       ∨ ∃ x err,
                           fld_validate field v [] primary_key = Return (x, Some err)
                           ∧ e = ValidationError [err] "PartialRef"))
  end.
Proof.
  intros primary_key. unfold PartialRef_validate, dict_getitem. fold primary_key.
  destruct (isinstance v type_); [by left |].
  destruct (dict_get (mc_fields type_) primary_key) as [field|]; simpl;
    [| by split; [| left]].
  destruct (fld_validate field v [] primary_key) as [[x [err|]]|e] eqn:Hf; simpl.
  - split; [done |]. right. exists field. split; [done |]. right. by exists x, err.
  - right. split; [done |]. by exists field.
  - split; [done |]. right. exists field. split; [done |]. by left.
Qed.

(** ** Further properties of drivers/sqlalchemy_driver.py *)

Section pydict_facts.
Context {V : Type}.
Implicit Types d : list (string * V).

Lemma dict_get_set_eq d (k : string) (v : V) : dict_get (dict_set d k v) k = Some v.
Proof.
  induction d as [|[k' x] d IH]; cbn [dict_get dict_set fmap list_fmap fst snd].
  - by rewrite decide_True.
  - destruct (decide (k' = k)) as [->|Hne]; cbn [dict_get dict_set fmap list_fmap fst snd].
    + by rewrite decide_True.
    + by rewrite decide_False.
Qed.

Lemma dict_get_set_ne d (k k' : string) (v : V) :
  k ≠ k' → dict_get (dict_set d k v) k' = dict_get d k'.
Proof.
  intros Hne. induction d as [|[k0 x] d IH]; cbn [dict_get dict_set fmap list_fmap fst snd].
  - by rewrite decide_False.
  - destruct (decide (k0 = k)) as [->|Hk0]; cbn [dict_get dict_set fmap list_fmap fst snd].
    + by rewrite !decide_False.
    + by rewrite IH.
Qed.

Lemma dict_set_keys d (k : string) (v : V) :
  (dict_set d k v).*1 = if decide (k ∈ d.*1) then d.*1 else (d.*1 ++ [k])%list.
Proof.
  induction d as [|[k' x] d IH]; cbn [dict_get dict_set fmap list_fmap fst snd].
  - rewrite decide_False; [done | apply not_elem_of_nil].
  - destruct (decide (k' = k)) as [->|Hne]; cbn [dict_get dict_set fmap list_fmap fst snd].
    + rewrite decide_True; [done | apply list_elem_of_here].
    + rewrite IH. destruct (decide (k ∈ d.*1)) as [Hin|Hnin].
      * rewrite decide_True; [done | by apply list_elem_of_further].
      * rewrite decide_False; [done |].
        intros [?|?]%elem_of_cons; congruence.
Qed.

Lemma dict_set_NoDup d (k : string) (v : V) :
  NoDup d.*1 → NoDup (dict_set d k v).*1.
Proof.
  intros Hd. rewrite dict_set_keys. destruct (decide (k ∈ d.*1)); [done |].
  apply NoDup_app. split; [done |]. split; [| apply NoDup_singleton].
  intros x Hx ->%list_elem_of_singleton. done.
Qed.

Lemma dict_update_snoc d (l : list (string * V)) (x : string * V) :
  dict_update d (l ++ [x]) = dict_set (dict_update d l) x.1 x.2.
Proof. unfold dict_update. by rewrite foldl_snoc. Qed.

Lemma dict_update_NoDup d (l : list (string * V)) :
  NoDup d.*1 → NoDup (dict_update d l).*1.
Proof.
  intros Hd. induction l as [|x l IH] using rev_ind; [done |].
  rewrite dict_update_snoc. by apply dict_set_NoDup.
Qed.

Lemma dict_get_Some_elem d (k : string) (v : V) :
  dict_get d k = Some v → (k, v) ∈ d.
Proof.
  induction d as [|[k' x] d IH]; cbn [dict_get dict_set fmap list_fmap fst snd]; [done |].
  destruct (decide (k' = k)) as [->|Hne].
  - intros [= ->]. apply list_elem_of_here.
  - intros Hd. apply list_elem_of_further. by apply IH.
Qed.

Lemma dict_get_elem_NoDup d (k : string) (v : V) :
  NoDup d.*1 → (k, v) ∈ d → dict_get d k = Some v.
Proof.
  induction d as [|[k' x] d IH]; cbn [dict_get dict_set fmap list_fmap fst snd]; [by intros _ ?%elem_of_nil |].
  intros [Hk' Hd]%NoDup_cons [[= -> ->] | Hin]%elem_of_cons.
  - by rewrite decide_True.
  - rewrite decide_False; [by apply IH |].
    intros ->. apply Hk'. apply list_elem_of_fmap. by exists (k, v).
Qed.

(** A lookup after [d.update(other)]: the last binding of the key in
    [other], or else the binding [d] had. *)
Lemma dict_get_update d (other : list (string * V)) (k : string) :
  dict_get (dict_update d other) k
  = match dict_get (reverse other) k with
    | Some v => Some v
    | None => dict_get d k
    end.
Proof.
  induction other as [|[k' x] other IH] using rev_ind; [done |].
  rewrite dict_update_snoc, reverse_snoc. cbn [dict_get dict_set fmap list_fmap fst snd].
  destruct (decide (k' = k)) as [->|Hne].
  - apply dict_get_set_eq.
  - by rewrite dict_get_set_ne.
Qed.
End pydict_facts.

Lemma foldl_insert_lookup {V} (l : list (string * V)) (m : gmap string V)
    (k : string) :
  foldl (λ h t, <[t.1 := t.2]> h) m l !! k
  = match last (filter (λ t, t.1 = k) l) with
    | Some t => Some t.2
    | None => m !! k
    end.
Proof.
  induction l as [|t l IH] using rev_ind; [done |].
  rewrite foldl_snoc, filter_app, filter_cons, filter_nil.
  case_decide as Hk.
  - rewrite last_snoc, <- Hk. apply lookup_insert_eq.
  - rewrite app_nil_r, lookup_insert_ne by done. apply IH.
Qed.

Section location_map_further.
Context `{Backend}.

(** X5.  A driver that [__init__] returns holds the models and the map it was
    given, the inverse of that map, the session [connect] opened and an empty
    output; its headers bind each reflected table to its columns (the last
    one, should a name come twice) and bind nothing else. *)
Theorem __init___reflects_headers (url : string) (ms : gmap string ModelClass)
    (mm : list (string * string)) (self : Driver) :
  __init__ url ms mm = Return self →
  ∃ s tables,
    connect url = Return s ∧ reflect s = Return tables
    ∧ models self = ms ∧ maps self = mm ∧ rev_map self = invert mm
    ∧ session self = s ∧ stdout self = []
    ∧ ∀ table, headers self !! table
               = snd <$> last (filter (λ t, t.1 = table) tables).
Proof.
  unfold __init__, _read_heads.
  destruct (connect url) as [s|] eqn:Hs; simpl; [| done].
  destruct (reflect s) as [tables|] eqn:Ht; simpl; [| done].
  intros [= <-]. exists s, tables. repeat split; try done.
  intros table. simpl. rewrite foldl_insert_lookup.
  by destruct (last _).
Qed.

Lemma distinct_keys_run_step (s : step) (w : World) :
  Forall (λ mm : list (string * string), NoDup mm.*1) (maps_heap w) →
  match s with NewDict items => NoDup items.*1 | _ => True end →
  Forall (λ mm : list (string * string), NoDup mm.*1) (maps_heap (run_step s w)).
Proof.
  intros Hw Hs. destruct s as [items | ms | url ma pa | d kwds]; simpl; try done.
  - apply Forall_app. split; [done |]. by apply Forall_singleton.
  - destruct (new_driver url ma pa w) as [[d2 w2]|e] eqn:Hnew; [| done].
    unfold new_driver in Hnew.
    destruct (models_heap w !! default default_models ma) as [ms'|]; [| done].
    destruct (maps_heap w !! default default_model_maps pa) as [mm'|]; [| done].
    destruct (__init__ url ms' mm') as [self2|]; simpl in Hnew; [| done].
    by injection Hnew as <- <-.
  - unfold call_map_to_model.
    destruct (view w d) as [self|] eqn:Hview; [| done].
    pose proof Hview as (o & Ho & _ & Hmm & _)%view_Some.
    unfold store. rewrite Ho. simpl.
    apply Forall_insert; [done |]. apply dict_update_NoDup.
    by apply (Forall_lookup_1 _ _ _ _ Hw Hmm).
Qed.

Lemma distinct_keys_run (steps : list step) (w : World) :
  Forall (λ mm : list (string * string), NoDup mm.*1) (maps_heap w) →
  Forall (λ s, match s with NewDict items => NoDup items.*1 | _ => True end) steps →
  Forall (λ mm : list (string * string), NoDup mm.*1) (maps_heap (run steps w)).
Proof.
  revert w. induction steps as [|s steps IH]; intros w Hw Hsteps; [done |].
  apply Forall_cons in Hsteps as [Hs Hsteps]. simpl.
  apply IH; [| done]. by apply distinct_keys_run_step.
Qed.

(** X6.  Take a world whose location maps have distinct keys, as dicts do, a
    driver that was just created or has just returned from [map_to_model],
    and any further steps of the program among which no other driver holding
    the same dict as this driver's [maps] calls [map_to_model].  Then
    [rev_map] holds no stale entry: whenever it sends a table [v] to a key
    [k], [maps] sends [k] to [v], so that [maps.get(rev_map[v]) == v],
    collisions or not. *)
Theorem rev_map_sound (w : World) (d : nat) (steps : list step) :
  Forall (λ mm : list (string * string), NoDup mm.*1) (maps_heap w) →
  Forall (λ s, match s with NewDict items => NoDup items.*1 | _ => True end) steps →
  fresh_from_maps w d →
  undisturbed d steps w →
  ∃ self,
    view (run steps w) d = Some self
    ∧ ∀ k v, rev_map self !! v = Some k → dict_get (maps self) k = Some v.
Proof.
  intros Hw Hsteps Hfresh Hund.
  destruct (in_step_run steps w d (in_step_fresh w d Hfresh) Hund)
    as (self & Hview & Hinv).
  exists self. split; [done |]. intros k v Hrev.
  rewrite Hinv, invert_lookup in Hrev.
  destruct (last (filter (λ kv, kv.2 = v) (maps self))) as [[k' v']|] eqn:Hlast;
    [| done].
  injection Hrev as ->.
  apply last_Some_elem_of, list_elem_of_filter in Hlast as [Hv Hin].
  simpl in Hv. subst v'.
  apply dict_get_elem_NoDup; [| done].
  pose proof Hview as (o & _ & _ & Hmm & _)%view_Some.
  exact (Forall_lookup_1 _ _ _ _ (distinct_keys_run steps w Hw Hsteps) Hmm).
Qed.

(** X7.  [map_to_model] merges: afterwards a key given in the call is mapped
    to the table of its last occurrence there, every other key is mapped as
    before, and the models, headers, session and output are untouched. *)
Theorem map_to_model_merges (kwds : list (string * string)) (self : Driver)
    (k : string) :
  dict_get (maps (map_to_model kwds self)) k
  = match dict_get (reverse kwds) k with
    | Some table => Some table
    | None => dict_get (maps self) k
    end
  ∧ models (map_to_model kwds self) = models self
  ∧ headers (map_to_model kwds self) = headers self
  ∧ session (map_to_model kwds self) = session self
  ∧ stdout (map_to_model kwds self) = stdout self.
Proof. split; [apply dict_get_update | done]. Qed.

(** X8.  After [map_to_model(k=table)], a model bound under either name is
    found under the other: under the key [k] when it is bound to the table
    only; under the table when it is bound to [k] only, no other key is
    mapped to the table and the table is not itself a key leading to a bound
    model. *)
Theorem _get_model_across_map (self : Driver) (k table : string) (m : ModelClass) :
  let self' := map_to_model [(k, table)] self in
  (models self !! k = None → models self !! table = Some m →
   _get_model self' k = Some m)
  ∧ (models self !! table = None → models self !! k = Some m →
     (∀ k', (k', table) ∈ maps self' → k' = k) →
     (∀ t, dict_get (maps self') table = Some t → models self !! t = None) →
     _get_model self' table = Some m).
Proof.
  intros self'. unfold _get_model, get_default. split.
  - intros Hk Ht. simpl. rewrite Hk.
    change (dict_update (maps self) [(k, table)]) with (dict_set (maps self) k table).
    rewrite dict_get_set_eq. simpl. by rewrite Ht.
  - intros Ht Hk Huniq Hkey. simpl. rewrite Ht.
    assert (Hin : (k, table) ∈ maps self').
    { apply dict_get_Some_elem. simpl.
      change (dict_update (maps self) [(k, table)])
        with (dict_set (maps self) k table).
      apply dict_get_set_eq. }
    assert (Hrev : rev_map self' !! table = Some k)
      by by apply invert_lookup_unique.
    simpl in Hrev. rewrite Hrev. simpl.
    destruct (dict_get _ table) as [t|] eqn:Hm; simpl.
    + rewrite (Hkey t eq_refl). by rewrite Hk.
    + by rewrite Hk.
Qed.
End location_map_further.

Lemma __init___reflects_headers_witness :
  ∃ self, @__init__ Demo.backend "sqlite://" ∅ [("library", "books")] = Return self
          ∧ headers self !! "books" = Some ["id"; "author"]
          ∧ headers self !! "library" = None.
Proof.
  eexists. split; [reflexivity |].
  destruct (@__init___reflects_headers Demo.backend "sqlite://" ∅
              [("library", "books")] _ eq_refl)
    as (s & tables & _ & Ht & _ & _ & _ & _ & _ & Hh).
  injection Ht as <-. rewrite !Hh. split; reflexivity.
Defined.

Lemma rev_map_sound_witness :
  ∃ self,
    view (run [NewDriver "sqlite://" None None; MapToModel 0 [("a", "t")];
               MapToModel 0 [("b", "t")]]
            (@initial_world Demo.backend)) 0 = Some self
    ∧ dict_get (maps self) "b" = Some "t".
Proof.
  destruct (@rev_map_sound Demo.backend
              (run [NewDriver "sqlite://" None None] initial_world) 0
              [MapToModel 0 [("a", "t")]; MapToModel 0 [("b", "t")]])
    as (self & Hview & Hsound).
  - repeat constructor.
  - repeat constructor.
  - left. exists "sqlite://", None, None, initial_world. reflexivity.
  - simpl. repeat split; by left.
  - exists self. split; [exact Hview |].
    apply Hsound.
    pose proof Hview as Hself. vm_compute in Hself. injection Hself as <-.
    reflexivity.
Defined.

Lemma _get_model_across_map_witness :
  _get_model (map_to_model [("library", "books")] (Demo.driver [])) "library"
  = Some Demo.Book.
Proof.
  refine (proj1 (@_get_model_across_map Demo.backend (Demo.driver []) "library"
                   "books" Demo.Book) _ _); reflexivity.
Defined.

Section reading_further.
Context `{Backend}.

Lemma _get_model_ext (a b : Driver) (location : string) :
  models a = models b → maps a = maps b → rev_map a = rev_map b →
  _get_model a location = _get_model b location.
Proof. unfold _get_model. by intros -> -> ->. Qed.

Lemma bind_model_frame (location : string) (model : option ModelClass)
    (self : Driver) :
  headers (bind_model location model self) = headers self
  ∧ maps (bind_model location model self) = maps self
  ∧ rev_map (bind_model location model self) = rev_map self
  ∧ session (bind_model location model self) = session self
  ∧ stdout (bind_model location model self) = stdout self.
Proof.
  unfold bind_model. by destruct model, (_get_model self location).
Qed.

Lemma fetch_state (location condition : string) (limit_result : Z)
    (model : option ModelClass) (no_handle ignore_model : bool) (self : Driver) :
  let self' := (fetch location condition limit_result model no_handle
                  ignore_model self).2 in
  models self' = models (bind_model location model self)
  ∧ headers self' = headers self
  ∧ maps self' = maps self
  ∧ rev_map self' = rev_map self
  ∧ (stdout self' = stdout self ∨ ∃ line, stdout self' = (stdout self ++ [line])%list).
Proof.
  destruct (bind_model_frame location model self) as (Hh & Hm & Hr & _ & Ho).
  unfold fetch.
  destruct (fetch_try _ _ _ _) as [[[|r results]|e] s]; simpl.
  - by repeat split; try left.
  - destruct no_handle; simpl; by repeat split; try left.
  - destruct e; simpl; repeat split; try done; try (by left).
    right. eexists. by rewrite Ho.
Qed.

Lemma fetch_one_state (location : string) (condition : option string)
    (model : option ModelClass) (no_handle ignore_model : bool) (self : Driver) :
  let self' := (fetch_one location condition model no_handle ignore_model self).2 in
  models self' = models (bind_model location model self)
  ∧ headers self' = headers self
  ∧ maps self' = maps self
  ∧ rev_map self' = rev_map self
  ∧ (stdout self' = stdout self ∨ ∃ line, stdout self' = (stdout self ++ [line])%list).
Proof.
  destruct (bind_model_frame location model self) as (Hh & Hm & Hr & _ & Ho).
  unfold fetch_one.
  destruct (fetch_one_try _ _ _) as [[[[|v r]|]|e] s].
  - simpl. by repeat split; try left.
  - destruct no_handle; [simpl; by repeat split; try left |].
    cbv zeta.
    match goal with
    | |- context [next ?a ?b] => destruct (next a b) as [[data|e] g]
    end; simpl; by repeat split; try left.
  - simpl. by repeat split; try left.
  - destruct e; simpl; repeat split; try done; try (by left).
    right. eexists. by rewrite Ho.
Qed.

Lemma _get_model_bind_model (location : string) (m : ModelClass) (self : Driver) :
  _get_model (bind_model location (Some m) self) location
  = Some (default m (_get_model self location)).
Proof.
  unfold bind_model.
  destruct (_get_model self location) as [m'|] eqn:Hm; simpl; [done |].
  unfold _get_model, get_default. simpl. by rewrite lookup_insert_eq.
Qed.

(** X9.  A model passed to [fetch] or [fetch_one] is bound to the location
    only when no model can be resolved for it: after the call the location
    resolves to the model it resolved to before, or else to the one passed;
    so a later call that passes another model does not rebind it. *)
Theorem fetch_binds_first_model (location condition : string)
    (condition1 : option string) (limit_result : Z) (m m2 : ModelClass)
    (no_handle ignore_model : bool) (self : Driver) :
  let self1 := (fetch location condition limit_result (Some m) no_handle
                  ignore_model self).2 in
  let self2 := (fetch_one location condition1 (Some m) no_handle
                  ignore_model self).2 in
  _get_model self1 location = Some (default m (_get_model self location))
  ∧ _get_model self2 location = Some (default m (_get_model self location))
  ∧ _get_model (fetch location condition limit_result (Some m2) no_handle
                  ignore_model self1).2 location
    = _get_model self1 location.
Proof.
  intros self1 self2.
  assert (H1 : _get_model self1 location
               = Some (default m (_get_model self location)));
    [subst self1 | clearbody self1; subst self2].
  { destruct (fetch_state location condition limit_result (Some m) no_handle
                ignore_model self) as (Hmo & _ & Hma & Hr & _).
    destruct (bind_model_frame location (Some m) self) as (_ & Hma' & Hr' & _).
    rewrite <- _get_model_bind_model.
    apply _get_model_ext; congruence. }
  split; [done |]. split.
  - destruct (fetch_one_state location condition1 (Some m) no_handle
                ignore_model self) as (Hmo & _ & Hma & Hr & _).
    destruct (bind_model_frame location (Some m) self) as (_ & Hma' & Hr' & _).
    rewrite <- _get_model_bind_model.
    apply _get_model_ext; congruence.
  - destruct (fetch_state location condition limit_result (Some m2) no_handle
                ignore_model self1) as (Hmo & _ & Hma & Hr & _).
    destruct (bind_model_frame location (Some m2) self1) as (_ & Hma' & Hr' & _).
    transitivity (_get_model (bind_model location (Some m2) self1) location).
    { apply _get_model_ext; congruence. }
    rewrite _get_model_bind_model, H1. done.
Qed.

(** X10.  [fetch] and [fetch_one] never touch the headers, the location map
    or its inverse; of the models they can change the binding of the given
    location only, and nothing at all when no model is passed or one is
    already resolved; they print at most one line. *)
Theorem fetch_frame (location condition : string) (condition1 : option string)
    (limit_result : Z) (model : option ModelClass)
    (no_handle ignore_model : bool) (self : Driver) (self' : Driver) :
  self' = (fetch location condition limit_result model no_handle
             ignore_model self).2
  ∨ self' = (fetch_one location condition1 model no_handle ignore_model self).2 →
  headers self' = headers self
  ∧ maps self' = maps self
  ∧ rev_map self' = rev_map self
  ∧ (∀ l, l ≠ location → models self' !! l = models self !! l)
  ∧ (model = None ∨ is_Some (_get_model self location) →
     models self' = models self)
  ∧ (stdout self' = stdout self ∨ ∃ line, stdout self' = (stdout self ++ [line])%list).
Proof.
  intros Hself'.
  assert (Hst : models self' = models (bind_model location model self)
                ∧ headers self' = headers self ∧ maps self' = maps self
                ∧ rev_map self' = rev_map self
                ∧ (stdout self' = stdout self
                   ∨ ∃ line, stdout self' = (stdout self ++ [line])%list)).
  { destruct Hself' as [-> | ->]; [apply fetch_state | apply fetch_one_state]. }
  destruct Hst as (Hmo & Hh & Hma & Hr & Ho).
  repeat split; try done.
  - intros l Hl. rewrite Hmo. unfold bind_model.
    destruct model as [m|], (_get_model self location); try done.
    simpl. by rewrite lookup_insert_ne.
  - intros Hnone. rewrite Hmo. unfold bind_model.
    destruct Hnone as [-> | [m' ->]]; [done |]. by destruct model.
Qed.

(** X11.  The outcomes of [fetch], read backwards: [None] comes from a
    backend error in the [try] block or from an empty result and from nothing
    else; raw rows and generators come from a non-empty result, according to
    [no_handle]; and an exception that leaves [fetch] was raised in the [try]
    block and is no backend error. *)
Theorem fetch_outcomes (location condition : string) (limit_result : Z)
    (model : option ModelClass) (no_handle ignore_model : bool) (self : Driver) :
  let self1 := bind_model location model self in
  let table := default location (dict_get (maps self1) location) in
  let tried := fetch_try table condition limit_result (session self1) in
  match (fetch location condition limit_result model no_handle
           ignore_model self).1 with
  | Return None =>
      (∃ msg, tried.1 = Raise (SQLAlchemyError msg)) ∨ tried.1 = Return []
  | Return (Some (RawRows results)) =>
      no_handle = true ∧ results ≠ [] ∧ tried.1 = Return results
  | Return (Some (Records g)) =>
      no_handle = false
      ∧ ∃ results, results ≠ [] ∧ tried.1 = Return results
                   ∧ g = Suspended table
                           (if ignore_model then None
                            else _get_model self1 location) results
  | Raise e => tried.1 = Raise e ∧ ∀ msg, e ≠ SQLAlchemyError msg
  end.
Proof.
  intros self1 table tried. unfold fetch. fold self1. fold table. fold tried.
  destruct tried as [[[|r results]|e] s]; simpl.
  - by right.
  - destruct no_handle; simpl; [done |]. split; [done |]. by exists (r :: results).
  - destruct e as [| | | | | | | | | |msg]; simpl; try done. left. by exists msg.
Qed.

(** X12.  A limit of zero or below is no limit: [fetch] with any such
    [limit_result] is [fetch] with the default [-1]. *)
Theorem fetch_non_positive_limit (location condition : string) (limit_result : Z)
    (model : option ModelClass) (no_handle ignore_model : bool) (self : Driver) :
  limit_result ≤ 0 →
  fetch location condition limit_result model no_handle ignore_model self
  = fetch location condition (-1) model no_handle ignore_model self.
Proof.
  intros Hle. unfold fetch, fetch_try, fetch_query.
  by rewrite (bool_decide_eq_false_2 (0 < limit_result)) by lia.
Qed.
End reading_further.

Lemma fetch_non_positive_limit_witness :
  @fetch Demo.backend "books" "" 0 None false false
    (Demo.driver [("books", [("id", VInt 1); ("author", VInt 7)]);
                  ("books", [("id", VInt 2); ("author", VInt 7)])])
  = @fetch Demo.backend "books" "" (-1) None false false
      (Demo.driver [("books", [("id", VInt 1); ("author", VInt 7)]);
                    ("books", [("id", VInt 2); ("author", VInt 7)])]).
Proof. apply (@fetch_non_positive_limit Demo.backend). lia. Defined.

Lemma fetch_frame_witness :
  headers (@fetch Demo.backend "authors" "" (-1) (Some Demo.Author) false false
             (Demo.driver [])).2
  = headers (Demo.driver []).
Proof.
  refine (proj1 (@fetch_frame Demo.backend "authors" "" None (-1)
                   (Some Demo.Author) false false (Demo.driver []) _ _)).
  left. reflexivity.
Defined.

Section records.
Context `{Backend}.
Local Open Scope nat_scope.

Lemma zip_headers_from (self : Driver) (head : string) (cols : list string)
    (result_ : row) (i : nat) (data0 : pydict) :
  headers self !! head = Some cols →
  NoDup cols →
  data0.*1 = take i cols →
  i + length result_ ≤ length cols →
  ∃ data,
    zip_headers self head i result_ data0 = Return data
    ∧ data.*1 = take (i + length result_) cols
    ∧ (∀ j c v, cols !! (i + j) = Some c → result_ !! j = Some v →
                dict_get data c = Some v)
    ∧ (∀ c, c ∈ take i cols → dict_get data c = dict_get data0 c).
Proof.
  intros Hhead Hnd. revert i data0.
  induction result_ as [|v rest IH]; intros i data0 Hkeys Hlen; simpl in *.
  - exists data0. rewrite Nat.add_0_r. split; [done |]. split; [done |].
    split; [| done]. intros j c v _ Hj. by rewrite lookup_nil in Hj.
  - unfold getitem. rewrite Hhead. simpl.
    destruct (cols !! i) as [key|] eqn:Hkey; simpl;
      [| apply lookup_ge_None in Hkey; lia].
    assert (Hfresh : key ∉ take i cols).
    { intros [j Hj]%list_elem_of_lookup.
      apply lookup_take_Some in Hj as [Hj Hji].
      assert (j = i) by by eapply NoDup_lookup. lia. }
    assert (Hkeys1 : (dict_set data0 key v).*1 = take (S i) cols).
    { rewrite dict_set_keys, Hkeys. rewrite decide_False by done.
      by erewrite take_S_r. }
    destruct (IH (S i) (dict_set data0 key v) Hkeys1 ltac:(lia))
      as (data & Hzip & Hdk & Hget & Hold).
    exists data. split; [done |].
    split; [by replace (i + S (length rest)) with (S i + length rest) by lia |].
    split.
    + intros [|j] c x Hc Hx; simpl in Hx.
      * injection Hx as <-. rewrite Nat.add_0_r, Hkey in Hc. injection Hc as <-.
        rewrite Hold; [apply dict_get_set_eq |].
        erewrite take_S_r by done. apply elem_of_app. right.
        apply list_elem_of_here.
      * apply (Hget j); [| done].
        by replace (S i + j) with (i + S j) by lia.
    + intros c Hc. rewrite Hold.
      * apply dict_get_set_ne. intros ->. done.
      * erewrite take_S_r by done. apply elem_of_app. by left.
Qed.

(** X13.  For a table whose reflected column names are distinct, a row no
    longer than the header is zipped into a record whose keys are the first
    column names, in order, one per value, and which sends the name of
    column [i] to the value at position [i]. *)
Theorem zip_headers_record (self : Driver) (head : string) (cols : list string)
    (result_ : row) :
  headers self !! head = Some cols →
  NoDup cols →
  length result_ ≤ length cols →
  ∃ data,
    zip_headers self head 0 result_ [] = Return data
    ∧ data.*1 = take (length result_) cols
    ∧ ∀ i c v, cols !! i = Some c → result_ !! i = Some v →
               dict_get data c = Some v.
Proof.
  intros Hhead Hnd Hlen.
  destruct (zip_headers_from self head cols result_ 0 [] Hhead Hnd eq_refl Hlen)
    as (data & Hzip & Hkeys & Hget & _).
  by exists data.
Qed.

Lemma zip_headers_overflow (self : Driver) (head : string) (cols : list string)
    (result_ : row) (i : nat) (data0 : pydict) :
  headers self !! head = Some cols →
  length cols < i + length result_ →
  i ≤ length cols →
  zip_headers self head i result_ data0
  = Raise (IndexError "tuple index out of range").
Proof.
  intros Hhead. revert i data0.
  induction result_ as [|v rest IH]; intros i data0 Hlen Hi; simpl in *; [lia |].
  unfold getitem. rewrite Hhead. simpl.
  destruct (cols !! i) as [key|] eqn:Hkey; simpl; [| done].
  apply lookup_lt_Some in Hkey. apply IH; lia.
Qed.

(** X14.  The ways converting a row fails before any validation: when the
    table has no header, any non-empty row raises the [KeyError] of the
    table, while an empty row still gives the empty record; when the row is
    longer than the header, [IndexError].  [next] reports either from the
    call that reaches the row, and the generator is finished. *)
Theorem zip_headers_errors (self : Driver) (head : string)
    (model : option ModelClass) (result_ : row) (results : list row) :
  (headers self !! head = None →
   zip_headers self head 0 [] [] = Return []
   ∧ (result_ ≠ [] →
      zip_headers self head 0 result_ [] = Raise (KeyError head)
      ∧ next self (_result_to_output head model (result_ :: results))
        = (Raise (KeyError head), Finished)))
  ∧ (∀ cols, headers self !! head = Some cols →
       length cols < length result_ →
       zip_headers self head 0 result_ []
       = Raise (IndexError "tuple index out of range")
       ∧ next self (_result_to_output head model (result_ :: results))
         = (Raise (IndexError "tuple index out of range"), Finished)).
Proof.
  split.
  - intros Hhead. split; [done |]. intros Hne.
    assert (Hzip : zip_headers self head 0 result_ [] = Raise (KeyError head)).
    { destruct result_ as [|v rest]; [done |].
      simpl. unfold getitem. by rewrite Hhead. }
    split; [done |]. unfold _result_to_output, next, convert. by rewrite Hzip.
  - intros cols Hhead Hlen.
    assert (Hzip : zip_headers self head 0 result_ []
                   = Raise (IndexError "tuple index out of range")).
    { apply zip_headers_overflow with (cols := cols); [done | lia | lia]. }
    split; [done |]. unfold _result_to_output, next, convert. by rewrite Hzip.
Qed.

(** X15.  The generator is single-pass: when every row converts, as many
    calls of [next] as there are rows yield the records in order, the call
    after them raises [StopIteration], and so does every call on a finished
    generator.  A call that raises finishes the generator, so the rows after a
    failing row are never produced. *)
Theorem generator_single_pass (self : Driver) (head : string)
    (model : option ModelClass) (results : list row) (datas : list pydict) :
  Forall2 (λ r data, convert self head model r = Return data) results datas →
  nexts (length results) self (_result_to_output head model results)
  = (Return datas, Suspended head model [])
  ∧ next self (Suspended head model []) = (Raise StopIteration, Finished)
  ∧ next self Finished = (Raise StopIteration, Finished)
  ∧ ∀ g e g', next self g = (Raise e, g') → g' = Finished.
Proof.
  intros Hall. split.
  - pose proof (nexts_yields self head model results [] datas Hall) as Hn.
    by rewrite app_nil_r in Hn.
  - repeat split. intros g e g'. unfold next.
    destruct g as [hd md [|r rs]|]; try by intros [= _ <-].
    destruct (convert self hd md r); by intros [= <-].
Qed.

(** X16.  [fetch_one] validates at once: when the row it fetched fails the
    validation of the model bound to the location, the [ValidationError]
    leaves [fetch_one] itself. *)
Theorem fetch_one_raises_validation_error (self : Driver) (location : string)
    (condition : option string) (model : option ModelClass)
    (result_ : row) (s : Session) (bound : ModelClass) (data : pydict) (e : exn) :
  let self1 := bind_model location model self in
  let table := default location (dict_get (maps self1) location) in
  let self' := set_session s self1 in
  fetch_one_try table condition (session self1) = (Return (Some result_), s) →
  result_ ≠ [] →
  _get_model self1 location = Some bound →
  zip_headers self' table 0 result_ [] = Return data →
  model_init bound data = Raise e →
  fetch_one location condition model false false self = (Raise e, self').
Proof.
  intros self1 table self' Htry Hne Hbound Hzip Hinit.
  unfold fetch_one. fold self1. fold table. rewrite Htry, Hbound.
  destruct result_ as [|v rest]; [done |].
  cbv zeta. fold self'. unfold _result_to_output, next, convert.
  rewrite Hzip. simpl. by rewrite Hinit.
Qed.
End records.

Lemma zip_headers_record_witness :
  ∃ data, zip_headers (Demo.driver []) "books" 0 [VInt 1; VInt 7] [] = Return data
          ∧ dict_get data "author" = Some (VInt 7).
Proof.
  destruct (@zip_headers_record Demo.backend (Demo.driver []) "books"
              ["id"; "author"] [VInt 1; VInt 7] eq_refl)
    as (data & Hzip & _ & Hget).
  - apply NoDup_cons. split; [by intros ?%list_elem_of_singleton |].
    apply NoDup_singleton.
  - simpl. lia.
  - exists data. split; [exact Hzip |].
    exact (Hget 1%nat "author" (VInt 7) eq_refl eq_refl).
Defined.

Lemma zip_headers_errors_witness :
  zip_headers (Demo.driver []) "library" 0 [VInt 1] [] = Raise (KeyError "library")
  ∧ zip_headers (Demo.driver []) "authors" 0 [VInt 1; VInt 7] []
    = Raise (IndexError "tuple index out of range").
Proof.
  split.
  - refine (proj1 (proj2 (proj1 (@zip_headers_errors Demo.backend (Demo.driver [])
                                   "library" None [VInt 1] []) eq_refl) _)).
    discriminate.
  - refine (proj1 (proj2 (@zip_headers_errors Demo.backend (Demo.driver [])
                            "authors" None [VInt 1; VInt 7] []) ["id"] eq_refl _)).
    simpl. lia.
Defined.

Lemma generator_single_pass_witness :
  nexts 2 (Demo.driver [])
    (_result_to_output "books" None [[VInt 1; VInt 7]; [VInt 2; VInt 8]])
  = (Return [[("id", VInt 1); ("author", VInt 7)];
             [("id", VInt 2); ("author", VInt 8)]],
     Suspended "books" None []).
Proof.
  refine (proj1 (@generator_single_pass Demo.backend (Demo.driver []) "books" None
                   [[VInt 1; VInt 7]; [VInt 2; VInt 8]] _ _)).
  repeat constructor.
Defined.

Lemma fetch_one_raises_validation_error_witness :
  (@fetch_one Demo.backend "books" None None false false
     (Demo.driver [("books", [("id", VInt 2); ("author", VStr "x")])])).1
  = Raise (ValidationError
             [(ValidationError [(TypeError "value is not a valid integer", "id")]
                 "PartialRef", "author")] "Book").
Proof.
  refine (f_equal fst
            (@fetch_one_raises_validation_error Demo.backend
               (Demo.driver [("books", [("id", VInt 2); ("author", VStr "x")])])
               "books" None None [VInt 2; VStr "x"]
               {| Demo.db := [("books", [("id", VInt 2); ("author", VStr "x")])];
                  Demo.pending := [] |}
               Demo.Book [("id", VInt 2); ("author", VStr "x")] _
               eq_refl _ eq_refl eq_refl eq_refl)).
  discriminate.
Defined.

Section writing_further.
Context `{Backend}.

(** X17.  [_model_fits] returns true exactly when a model is resolved for the
    location, the headers have columns for the location itself, and every
    one of these columns is the name of a field of the model; fields of the
    model that are no column do not matter. *)
Theorem _model_fits_true_iff (self : Driver) (location : string) :
  _model_fits self location = Return true
  ↔ ∃ model cols,
      _get_model self location = Some model
      ∧ headers self !! location = Some cols
      ∧ ∀ c, c ∈ cols → c ∈ (mc_fields model).*1.
Proof.
  unfold _model_fits, getitem. split.
  - destruct (_get_model self location) as [model|]; [| done].
    destruct (headers self !! location) as [cols|]; simpl; [| done].
    intros [= Hsub%bool_decide_eq_true]. exists model, cols.
    repeat split. intros c Hc.
    apply (elem_of_list_to_set (C := gset string)), Hsub.
    by apply elem_of_list_to_set.
  - intros (model & cols & -> & -> & Hsub). simpl. f_equal.
    apply bool_decide_eq_true. intros c Hc%elem_of_list_to_set.
    apply elem_of_list_to_set. by apply Hsub.
Qed.

Lemma export_item_frame (model : option ModelClass) (include exclude : gset string)
    (location : string) (data : value) (self : Driver) :
  let self' := (export_item model include exclude location data self).2 in
  models self' = models self ∧ headers self' = headers self
  ∧ maps self' = maps self ∧ rev_map self' = rev_map self
  ∧ ∃ lines, stdout self' = (stdout self ++ lines)%list ∧ (length lines ≤ 1)%nat.
Proof.
  unfold export_item.
  destruct (export_prepare _ _ _ _ _ _) as [instance|e]; simpl.
  - destruct (export_try instance (session self)) as [[[]|e] s]; simpl.
    + repeat split. exists []. rewrite app_nil_r. split; [done | simpl; lia].
    + destruct e as [| | | | | | | | | |msg]; simpl;
        try (repeat split; exists []; rewrite app_nil_r; split; [done | simpl; lia]).
      destruct (session_rollback s) as [r s']; simpl.
      repeat split. eexists [_]. split; [done | simpl; lia].
  - repeat split. exists []. rewrite app_nil_r. split; [done | simpl; lia].
Qed.

Lemma export_loop_frame (model : option ModelClass) (include exclude : gset string)
    (location : string) (stream : list value) (self : Driver) :
  let self' := (export_loop model include exclude location stream self).2 in
  models self' = models self ∧ headers self' = headers self
  ∧ maps self' = maps self ∧ rev_map self' = rev_map self
  ∧ ∃ lines, stdout self' = (stdout self ++ lines)%list
             ∧ (length lines ≤ length stream)%nat.
Proof.
  revert self. induction stream as [|data stream IH]; intros self; simpl.
  - repeat split. exists []. rewrite app_nil_r. split; [done | simpl; lia].
  - pose proof (export_item_frame model include exclude location data self)
      as (Hmo & Hh & Hma & Hr & lines & Ho & Hlen).
    destruct (export_item _ _ _ _ data self) as [[[]|e] self1]; simpl in *.
    + destruct (IH self1) as (Hmo' & Hh' & Hma' & Hr' & lines' & Ho' & Hlen').
      repeat split; try congruence.
      exists (lines ++ lines')%list. rewrite Ho', Ho, app_assoc.
      split; [done |]. rewrite length_app. lia.
    + repeat split; try done. exists lines. split; [done | lia].
Qed.

(** X18.  Whatever its outcome, [export] leaves the models, the headers, the
    location map and its inverse as they were, and only adds lines to the
    output, at most one per item of the stream. *)
Theorem export_frame (location : string) (stream : list value)
    (include exclude : option (gset string)) (self : Driver) :
  let self' := (export location stream include exclude self).2 in
  models self' = models self ∧ headers self' = headers self
  ∧ maps self' = maps self ∧ rev_map self' = rev_map self
  ∧ ∃ lines, stdout self' = (stdout self ++ lines)%list
             ∧ (length lines ≤ length stream)%nat.
Proof.
  assert (Hid : models self = models self ∧ headers self = headers self
                ∧ maps self = maps self ∧ rev_map self = rev_map self
                ∧ ∃ lines, stdout self = (stdout self ++ lines)%list
                           ∧ (length lines ≤ length stream)%nat).
  { repeat split. exists []. rewrite app_nil_r. split; [done | simpl; lia]. }
  unfold export.
  destruct (_model_fits self location) as [[|]|e]; try done.
  destruct (or_set include _) as [inc|e]; [| done].
  apply export_loop_frame.
Qed.

(** X19.  The isolation of [export] stops at backend errors.  Once the items
    before [data] have been processed: an exception of [add] or [commit] that
    is no backend error leaves [export] at once, with nothing printed and no
    rollback; and when the rollback that follows a backend error raises, that
    exception leaves [export] after the error was printed.  In both cases the
    items after [data] are not attempted. *)
Theorem export_escaping_exceptions (model : option ModelClass)
    (include exclude : gset string) (location : string)
    (pre post : list value) (data : value) (self self1 : Driver)
    (instance : Mapped) :
  export_loop model include exclude location pre self = (Return (), self1) →
  export_prepare model include exclude location data self1 = Return instance →
  (∀ e s,
     export_try instance (session self1) = (Raise e, s) →
     (∀ msg, e ≠ SQLAlchemyError msg) →
     export_loop model include exclude location (pre ++ data :: post) self
     = (Raise e, set_session s self1))
  ∧ (∀ msg s e s',
       export_try instance (session self1) = (Raise (SQLAlchemyError msg), s) →
       session_rollback s = (Raise e, s') →
       export_loop model include exclude location (pre ++ data :: post) self
       = (Raise e,
          set_session s' (print ("Error exporting data: " +:+ msg)
                            (set_session s self1)))).
Proof.
  intros Hpre Hprep. split.
  - intros e s Htry Hne.
    rewrite export_loop_app, Hpre. simpl.
    unfold export_item. rewrite Hprep, Htry.
    destruct e as [| | | | | | | | | |msg]; try done. by destruct (Hne msg).
  - intros msg s e s' Htry Hroll.
    rewrite export_loop_app, Hpre. simpl.
    unfold export_item. rewrite Hprep, Htry. simpl. by rewrite Hroll.
Qed.
End writing_further.

Lemma export_escaping_exceptions_witness :
  (@export_loop Demo.broken (Some Demo.Book) (list_to_set ["id"; "author"]) ∅
     "books" [Demo.book (VInt 1) (VInt 7); Demo.book (VInt 2) (VInt 7)]
     Demo.broken_driver).1
  = Raise (TypeError "not a mapped class")
  ∧ @export_loop Demo.broken (Some Demo.Author) (list_to_set ["id"]) ∅
      "authors" [VDict [("id", VInt 1)]; VDict [("id", VInt 2)]]
      Demo.broken_driver
    = (Raise (SQLAlchemyError "cannot roll back"),
       @set_session Demo.broken [("authors", [("id", VInt 1)])]
         (print "Error exporting data: connection closed" Demo.broken_driver)).
Proof.
  split.
  - refine (f_equal fst
              (proj1 (@export_escaping_exceptions Demo.broken (Some Demo.Book)
                        (list_to_set ["id"; "author"]) ∅ "books" []
                        [Demo.book (VInt 2) (VInt 7)] (Demo.book (VInt 1) (VInt 7))
                        Demo.broken_driver Demo.broken_driver
                        ("books", [("id", VInt 1); ("author", VInt 7)])
                        eq_refl eq_refl)
                 (TypeError "not a mapped class")
                 [("books", [("id", VInt 1); ("author", VInt 7)])] eq_refl _)).
    intros msg. discriminate.
  - exact (proj2 (@export_escaping_exceptions Demo.broken (Some Demo.Author)
                    (list_to_set ["id"]) ∅ "authors" []
                    [VDict [("id", VInt 2)]] (VDict [("id", VInt 1)])
                    Demo.broken_driver Demo.broken_driver
                    ("authors", [("id", VInt 1)]) eq_refl eq_refl)
             "connection closed" [("authors", [("id", VInt 1)])]
             (SQLAlchemyError "cannot roll back")
             [("authors", [("id", VInt 1)])] eq_refl eq_refl).
Defined.
